(** * sync_media: the index.mth codec and the synchronisation run

    A shallow embedding of [sync_media.py].  The module has two
    functions: the generator [iter_mth], which decodes an [index.mth]
    into hexadecimal hash strings, and the command [main], which
    reconciles a destination directory with a remote media index.

    Conventions of the embedding:
    - Python [bytes] are [list byte], Python [str] is [string], Python
      integers (indices, lengths, counters) are [nat]: none of them is
      ever negative in this program;
    - the characters of file names and URLs are [ascii] characters;
    - a generator is the list of the values it yields together with the
      exception, if any, that ends it;
    - [main] is written in a state-and-exception monad whose state holds
      the destination directory and the local variables of [main]; the
      state survives an exception, so that what was done before a run
      aborted can still be observed;
    - console output ([echo], the progress bar) is left out. *)

From Stdlib Require Import List Strings.String Strings.Ascii Strings.Byte Bool Arith PeanoNat Lia.
Import ListNotations.

Local Open Scope string_scope.
Local Open Scope list_scope.
Local Open Scope nat_scope.

(** ** Python primitives used by the module *)

Module Py.

Definition bytes := list byte.

(** [l[a:b]] for indices [0 <= a], [0 <= b]: out-of-range bounds are
    clamped, never an error. *)
Definition slice {A : Type} (a b : nat) (l : list A) : list A :=
  firstn (b - a) (skipn a l).

(** [range(start, stop, step)] for a positive [step].  The recursion is
    on a bound on the number of elements; [stop - start] is enough. *)
Fixpoint range_from (fuel start stop step : nat) : list nat :=
  match fuel with
  | O => []
  | S fuel' =>
      if start <? stop
      then start :: range_from fuel' (start + step) stop step
      else []
  end.

Definition range (start stop step : nat) : list nat :=
  range_from (stop - start) start stop step.

(** [x in l] and [l.remove(x)] on a list of strings.  [remove] deletes
    the first occurrence only; the program calls it under [x in l]. *)
Fixpoint contains (x : string) (l : list string) : bool :=
  match l with
  | [] => false
  | y :: l' => if String.eqb y x then true else contains x l'
  end.

Fixpoint remove (x : string) (l : list string) : list string :=
  match l with
  | [] => []
  | y :: l' => if String.eqb y x then l' else y :: remove x l'
  end.

(** [c in s] for a one-character string [c]. *)
Fixpoint char_in (c : ascii) (s : string) : bool :=
  match s with
  | EmptyString => false
  | String d s' => if Ascii.eqb c d then true else char_in c s'
  end.

(** [any(p(c) for c in s)]. *)
Fixpoint any (p : ascii -> bool) (s : string) : bool :=
  match s with
  | EmptyString => false
  | String c s' => if p c then true else any p s'
  end.

(** [all(p(c) for c in s)], used in statements only. *)
Fixpoint all (p : ascii -> bool) (s : string) : bool :=
  match s with
  | EmptyString => true
  | String c s' => if p c then all p s' else false
  end.

Definition bytes_eqb (x y : bytes) : bool :=
  if list_eq_dec Byte.byte_eq_dec x y then true else false.

(** [s[-1]]: [None] stands for the [IndexError] on the empty string. *)
Fixpoint last_char (s : string) : option ascii :=
  match s with
  | EmptyString => None
  | String c EmptyString => Some c
  | String _ s' => last_char s'
  end.

End Py.

(** ** Module-level constants *)

Definition HEXDIGIT : string := "0123456789abcdef".

(** The literal [b"MTHS\x00\x01"]. *)
Definition MAGIC : Py.bytes := [x4d; x54; x48; x53; x00; x01].

(** ** [bytes.hex()] *)

Definition hex_digit (n : nat) : ascii :=
  match String.get n HEXDIGIT with
  | Some c => c
  | None => "0"%char
  end.

Definition hex_byte (b : byte) : string :=
  let n := Byte.to_nat b in
  String (hex_digit (n / 16)) (String (hex_digit (n mod 16)) EmptyString).

Fixpoint hex (data : Py.bytes) : string :=
  match data with
  | [] => EmptyString
  | b :: data' => String.append (hex_byte b) (hex data')
  end.

(** ** Exceptions and generators *)

Inductive exn : Type :=
| RuntimeError (msg : string)
| IndexError
| ConnectionError
| IsADirectoryError
| FileNotFoundError.

(** A finished generator: the values it yielded, in order, and the
    exception that ended it ([None] for a normal [StopIteration]). *)
Definition generator (A : Type) : Type := (list A * option exn)%type.

Definition yields {A : Type} (g : generator A) : list A := fst g.
Definition raised {A : Type} (g : generator A) : option exn := snd g.

(** ** [iter_mth] *)

Definition iter_mth (data : Py.bytes) : generator string :=
  if negb (Py.bytes_eqb (Py.slice 0 6 data) MAGIC)
  then ([], Some (RuntimeError "Invalid index.mth"))
  else (map (fun i => hex (Py.slice i (i + 20) data))
            (Py.range 6 (List.length data) 20),
        None).

(** ** The destination directory

    The top level of [destination]: entry names with what they denote,
    in the order in which [os.listdir] and [os.scandir] enumerate them.
    A directory holds each name at most once ([NoDup] of [listdir], a
    hypothesis of the theorems that need it).  The model covers a
    [destination] that exists and is readable and writable; symbolic
    links and permissions are outside it. *)

Inductive node : Type :=
| File (content : Py.bytes)
| Dir.

Definition directory : Type := list (string * node).

Definition listdir (d : directory) : list string := map fst d.

Fixpoint lookup (name : string) (d : directory) : option node :=
  match d with
  | [] => None
  | (n, x) :: d' => if String.eqb n name then Some x else lookup name d'
  end.

(** The file [name] gets the content [content]; it is created when
    absent.  Only called on names that are not directories.  Where a new
    entry appears in the enumeration is the file system's choice; the
    model lists it last. *)
Fixpoint write_file (name : string) (content : Py.bytes) (d : directory)
  : directory :=
  match d with
  | [] => [(name, File content)]
  | (n, x) :: d' =>
      if String.eqb n name then (n, File content) :: d'
      else (n, x) :: write_file name content d'
  end.

Fixpoint unlink (name : string) (d : directory) : directory :=
  match d with
  | [] => []
  | (n, x) :: d' =>
      if String.eqb n name then d' else (n, x) :: unlink name d'
  end.

(** [entry.is_file()] *)
Definition is_file (x : node) : bool :=
  match x with File _ => true | Dir => false end.

(** ** The state of a run

    The destination directory and the local variables of [main] that
    change during the run.  [to_download] and [to_delete] are ghost
    variables: they record, in order, the [file_hash] with which the
    download block (line 90) is entered and the [file_name] handed to
    [os.remove] (line 106), that is, the values counted by
    [download_count] and [delete_count]. *)

Record state : Type := mkState {
  fs : directory;
  list_files : list string;
  found_count : nat;
  download_count : nat;
  delete_count : nat;
  to_download : list string;
  to_delete : list string
}.

Definition set_fs (f : directory -> directory) (s : state) : state :=
  mkState (f (fs s)) (list_files s) (found_count s) (download_count s)
          (delete_count s) (to_download s) (to_delete s).

Definition set_list_files (f : list string -> list string) (s : state)
  : state :=
  mkState (fs s) (f (list_files s)) (found_count s) (download_count s)
          (delete_count s) (to_download s) (to_delete s).

Definition incr_found (s : state) : state :=
  mkState (fs s) (list_files s) (S (found_count s)) (download_count s)
          (delete_count s) (to_download s) (to_delete s).

Definition incr_download (file_hash : string) (s : state) : state :=
  mkState (fs s) (list_files s) (found_count s) (S (download_count s))
          (delete_count s) (to_download s ++ [file_hash]) (to_delete s).

Definition incr_delete (file_name : string) (s : state) : state :=
  mkState (fs s) (list_files s) (found_count s) (download_count s)
          (S (delete_count s)) (to_download s) (to_delete s ++ [file_name]).

Definition initial (destination : directory) : state :=
  mkState destination [] 0 0 0 [] [].

(** ** The monad of [main]: state, and exceptions that keep the state *)

Inductive result (A : Type) : Type :=
| Ok (a : A)
| Raise (e : exn).
Arguments Ok {A} a.
Arguments Raise {A} e.

Definition M (A : Type) : Type := state -> result A * state.

Definition ret {A : Type} (a : A) : M A := fun s => (Ok a, s).

Definition raise {A : Type} (e : exn) : M A := fun s => (Raise e, s).

Definition bind {A B : Type} (c : M A) (k : A -> M B) : M B :=
  fun s =>
    match c s with
    | (Ok a, s') => k a s'
    | (Raise e, s') => (Raise e, s')
    end.

Definition get_state : M state := fun s => (Ok s, s).

Definition modify (f : state -> state) : M unit := fun s => (Ok tt, f s).

(** A computation that does not touch the state. *)
Definition lift {A : Type} (r : result A) : M A := fun s => (r, s).

Declare Scope sync_scope.
Delimit Scope sync_scope with sync.
Notation "x <- c ;; k" := (bind c (fun x => k))
  (at level 61, c at next level, right associativity) : sync_scope.
Notation "c ;; k" := (bind c (fun _ => k))
  (at level 61, right associativity) : sync_scope.
Local Open Scope sync_scope.

(** [for x in l: body(x)] *)
Fixpoint for_each {A : Type} (body : A -> M unit) (l : list A) : M unit :=
  match l with
  | [] => ret tt
  | x :: l' => body x ;; for_each body l'
  end.

(** [for x in g: body(x)] for a generator [g]: the body runs on each
    yielded value, then the generator's exception, if any, surfaces. *)
Definition for_gen {A : Type} (body : A -> M unit) (g : generator A)
  : M unit :=
  for_each body (yields g) ;;
  match raised g with
  | Some e => raise e
  | None => ret tt
  end.

(** *** File-system calls *)

(** [open(os.path.join(destination, name), "wb")]: creates or truncates
    the file; a directory of that name cannot be opened for writing. *)
Definition open_wb (name : string) : M unit :=
  s <- get_state ;;
  match lookup name (fs s) with
  | Some Dir => raise IsADirectoryError
  | _ => modify (set_fs (write_file name []))
  end.

(** Everything written to the open file [name] up to its close. *)
Definition write_all (name : string) (content : Py.bytes) : M unit :=
  modify (set_fs (write_file name content)).

(** [os.remove(os.path.join(destination, name))] *)
Definition os_remove (name : string) : M unit :=
  s <- get_state ;;
  match lookup name (fs s) with
  | Some (File _) => modify (set_fs (unlink name))
  | Some Dir => raise IsADirectoryError
  | None => raise FileNotFoundError
  end.

(** ** [main] *)

Section Sync.

(** The world outside the process.  [requests_post url] and
    [requests_get url] are the bodies the media server answers with;
    [None] stands for a request that fails or times out.  [sha1] is
    [hashlib]'s SHA-1 digest of a file's content. *)
Variable requests_post : string -> option Py.bytes.
Variable requests_get : string -> option Py.bytes.
Variable sha1 : Py.bytes -> Py.bytes.

(** The command-line options and the [media_index] argument. *)
Variables delete generate redownload : bool.
Variable media_index_arg : string.

Definition http (response : option Py.bytes) : result Py.bytes :=
  match response with
  | Some body => Ok body
  | None => Raise ConnectionError
  end.

(** Lines 69-70: a trailing slash is appended when absent;
    [media_index[-1]] fails on the empty string. *)
Definition with_slash (media_index : string) : result string :=
  match Py.last_char media_index with
  | None => Raise IndexError
  | Some c =>
      if negb (Ascii.eqb c "/"%char)
      then Ok (String.append media_index "/")
      else Ok media_index
  end.

(** The name filter shared by deletion and regeneration:
    [len(name) != 40 or not any(c in HEXDIGIT for c in name)]. *)
Definition not_hash_name (name : string) : bool :=
  negb (String.length name =? 40)
  || negb (Py.any (fun c => Py.char_in c HEXDIGIT) name).

(** Lines 92-98: the file is opened, then requested, then written as
    the response streams in.  The progress bar, and with it the reading
    of the [content-length] header, is not modelled. *)
Definition download (media_index file_hash : string) : M unit :=
  open_wb file_hash ;;
  body <- lift (http (requests_get (String.append media_index file_hash))) ;;
  write_all file_hash body.

(** Lines 81-98, the body of the loop over the remote hashes.
    [continue] is rendered by the flag [skip]. *)
Definition process_hash (media_index file_hash : string) : M unit :=
  modify incr_found ;;
  s <- get_state ;;
  skip <- (if Py.contains file_hash (list_files s)
           then modify (set_list_files (Py.remove file_hash)) ;;
                ret (negb redownload)
           else ret false) ;;
  if skip then ret tt
  else
    modify (incr_download file_hash) ;;
    download media_index file_hash.

(** Lines 104-108, the body of the deletion loop. *)
Definition delete_file (file_name : string) : M unit :=
  if not_hash_name file_name then ret tt
  else
    modify (incr_delete file_name) ;;
    os_remove file_name.

(** Lines 115-121: what the scan appends to the open [index.mth].
    An entry that passes the test of line 116 is a regular file, whose
    content is then read and hashed. *)
Fixpoint hash_entries (entries : directory) (written : Py.bytes)
  : Py.bytes :=
  match entries with
  | [] => written
  | (name, x) :: entries' =>
      if not_hash_name name || negb (is_file x)
      then hash_entries entries' written
      else
        match x with
        | File content => hash_entries entries' (written ++ sha1 content)
        | Dir => hash_entries entries' written
        end
  end.

(** Lines 110-125. *)
Definition write_index (mth_bytes : Py.bytes) : M unit :=
  if generate then
    open_wb "index.mth" ;;
    s <- get_state ;;
    write_all "index.mth" (hash_entries (fs s) MAGIC)
  else
    open_wb "index.mth" ;;
    write_all "index.mth" mth_bytes.

Definition main : M unit :=
  modify (fun s => set_list_files (fun _ => listdir (fs s)) s) ;;
  media_index <- lift (with_slash media_index_arg) ;;
  let mth_url := String.append media_index "index.mth" in
  mth_bytes <- lift (http (requests_post mth_url)) ;;
  for_gen (process_hash media_index) (iter_mth mth_bytes) ;;
  (if delete
   then s <- get_state ;; for_each delete_file (list_files s)
   else ret tt) ;;
  write_index mth_bytes.

(** Lines 80-125 of [main], what follows the fetch of the index: the
    loop over the remote hashes, the deletion loop and the writing of
    [index.mth]. *)
Definition phases (media_index : string) (mth_bytes : Py.bytes) : M unit :=
  for_gen (process_hash media_index)
          (iter_mth mth_bytes) ;;
  (if delete
   then s <- get_state ;; for_each delete_file (list_files s)
   else ret tt) ;;
  write_index mth_bytes.

End Sync.

(** A run of the command on a destination directory: how it ended and
    the state it left. *)
Definition run (requests_post requests_get : string -> option Py.bytes)
    (sha1 : Py.bytes -> Py.bytes) (delete generate redownload : bool)
    (media_index : string) (destination : directory)
  : result unit * state :=
  main requests_post requests_get sha1 delete generate redownload
       media_index (initial destination).

(** The index written by lines 113 and 121 for the digests [hashes]:
    the header, then each digest in order. *)
Definition encode (hashes : list Py.bytes) : Py.bytes :=
  MAGIC ++ List.concat hashes.

(** The contents of the entries that the regeneration scan keeps. *)
Fixpoint hashed_files (entries : directory) : list Py.bytes :=
  match entries with
  | [] => []
  | (name, File content) :: entries' =>
      if not_hash_name name then hashed_files entries'
      else content :: hashed_files entries'
  | (_, Dir) :: entries' => hashed_files entries'
  end.

(** The [j]-th 20-byte group of an index body. *)
Definition group (body : Py.bytes) (j : nat) : Py.bytes :=
  Py.slice (20 * j) (20 * j + 20) body.

(** A string made of lowercase hexadecimal digits only. *)
Definition lower_hex (s : string) : bool :=
  Py.all (fun c => Py.char_in c HEXDIGIT) s.

(** ** A program logic for [M]

    [triple P c Q E]: from a state in [P], the computation [c] either
    returns [a] in a state in [Q a] or raises in a state in [E]. *)

Definition triple {A : Type} (P : state -> Prop) (c : M A)
    (Q : A -> state -> Prop) (E : state -> Prop) : Prop :=
  forall s, P s ->
    match c s with
    | (Ok a, s') => Q a s'
    | (Raise _, s') => E s'
    end.

(** The part of the state that the file-system calls leave alone. *)
Definition plan_of (s : state) :=
  (list_files s, found_count s, download_count s, delete_count s,
   to_download s, to_delete s).

(** A predicate on states that does not look at the directory. *)
Definition plan_only (P : state -> Prop) : Prop :=
  forall s s', plan_of s = plan_of s' -> P s -> P s'.

(** The state in which the loops of [main] start: [list_files] holds
    the listing of the destination, nothing is counted yet. *)
Definition listed (destination : directory) : state :=
  set_list_files (fun _ => listdir destination) (initial destination).

(** The state in which the download block of the loop body is entered
    for [file_hash] (line 90): the hash is counted as found and as
    downloaded, and it has left the working list if it was there. *)
Definition entered (file_hash : string) (s : state) : state :=
  incr_download file_hash
    (if Py.contains file_hash (list_files s)
     then set_list_files (Py.remove file_hash) (incr_found s)
     else incr_found s).

(** What the last lines of [main] put into [index.mth], given the
    directory in which the file has just been opened. *)
Definition index_content (sha1 : Py.bytes -> Py.bytes) (generate : bool)
    (mth_bytes : Py.bytes) (opened : directory) : Py.bytes :=
  if generate then hash_entries sha1 opened MAGIC else mth_bytes.

(** A state in which nothing has been fetched and nothing deleted. *)
Definition idle (s : state) : Prop :=
  to_download s = [] /\ download_count s = 0
  /\ to_delete s = [] /\ delete_count s = 0.

(** ** Sample data for concrete runs *)

Module Sample.

(** Three digests and the names they give to files. *)
Definition hash_a : Py.bytes := repeat x0a 20.
Definition hash_b : Py.bytes := repeat x1b 20.
Definition hash_c : Py.bytes := repeat x2c 20.

Definition name_a : string := hex hash_a.
Definition name_b : string := hex hash_b.
Definition name_c : string := hex hash_c.

(** A stand-in for SHA-1 with digests of the right size: the first 20
    bytes of the zero-padded content. *)
Definition digest (content : Py.bytes) : Py.bytes :=
  firstn 20 (content ++ repeat x00 20).

(** A server that answers every request with [body]. *)
Definition serve (body : Py.bytes) : string -> option Py.bytes :=
  fun _ => Some body.

(** A destination with two hash-named files, a foreign file and a
    foreign subdirectory. *)
Definition destination : directory :=
  [(name_a, File [x01]); ("notes.txt", File [x02]);
   (name_b, File [x03]); ("cache", Dir)].

(** A destination whose only entry is a directory with a hash name. *)
Definition hash_named_directory : directory := [(name_a, Dir)].

(** A destination whose only entry is a foreign file named [ab]. *)
Definition short_name : directory := [("ab", File [x07])].

End Sample.

(** More sample data: a destination in step with the index that lists
    [hash_a] alone, and a server that fails on one file. *)

Module Scenario.

Definition synced : directory :=
  [(Sample.name_a, File [x01]); ("notes.txt", File [x02])].

Definition refuse (name : string) : string -> option Py.bytes :=
  fun url =>
    if String.eqb url (String.append "http://media/" name)
    then None
    else Some [x63].

End Scenario.

(** * Properties of the codec *)

Example iter_mth_header_only : iter_mth MAGIC = ([], None).
Proof. reflexivity. Qed.

Example iter_mth_fragment :
  iter_mth (MAGIC ++ [xab; x01]) = (["ab01"], None).
Proof. reflexivity. Qed.

Example iter_mth_empty :
  iter_mth [] = ([], Some (RuntimeError "Invalid index.mth")).
Proof. reflexivity. Qed.

Section Range.

Variable step : nat.
Hypothesis step_pos : 0 < step.

Lemma range_from_count (fuel start stop : nat) :
  stop - start <= fuel ->
  Py.range_from fuel start stop step
  = map (fun j => start + step * j)
        (seq 0 ((stop - start + step - 1) / step)).
Proof.
  revert start.
  induction fuel as [|fuel IH]; intros start Hfuel; simpl.
  - replace (stop - start) with 0 by lia.
    rewrite Nat.div_small by lia. reflexivity.
  - destruct (Nat.ltb_spec start stop) as [Hlt|Hge].
    + rewrite IH by lia.
      replace ((stop - start + step - 1) / step)
        with (S ((stop - (start + step) + step - 1) / step)).
      * simpl. f_equal; [f_equal; lia|].
        rewrite <- seq_shift, map_map.
        apply map_ext. intros j. lia.
      * destruct (Nat.le_gt_cases (stop - start) step) as [Hsmall|Hbig].
        -- replace (stop - (start + step)) with 0 by lia.
           rewrite Nat.div_small by lia.
           apply Nat.div_unique with (r := stop - start - 1); lia.
        -- replace (stop - start + step - 1)
             with ((stop - (start + step) + step - 1) + 1 * step) by lia.
           rewrite Nat.div_add by lia. lia.
    + replace (stop - start) with 0 by lia.
      rewrite Nat.div_small by lia. reflexivity.
Qed.

Lemma range_count (start len : nat) :
  Py.range start (start + len) step
  = map (fun j => start + step * j) (seq 0 ((len + step - 1) / step)).
Proof.
  unfold Py.range. rewrite range_from_count by lia.
  replace (start + len - start) with len by lia. reflexivity.
Qed.

End Range.

Lemma bytes_eqb_eq (x y : Py.bytes) : Py.bytes_eqb x y = true <-> x = y.
Proof.
  unfold Py.bytes_eqb.
  destruct (list_eq_dec byte_eq_dec x y); split; congruence.
Qed.

Lemma slice_after_prefix {A : Type} (pre body : list A) (a n : nat) :
  Py.slice (List.length pre + a) (List.length pre + a + n) (pre ++ body)
  = Py.slice a (a + n) body.
Proof.
  unfold Py.slice.
  rewrite skipn_app, skipn_all2 by lia.
  replace (List.length pre + a - List.length pre) with a by lia.
  simpl. f_equal. lia.
Qed.

Lemma slice_to_end {A : Type} (l : list A) (a b : nat) :
  List.length l <= b -> Py.slice a b l = skipn a l.
Proof.
  intros Hb. unfold Py.slice.
  apply firstn_all2. rewrite length_skipn. lia.
Qed.

Lemma slice_length {A : Type} (l : list A) (a n : nat) :
  a + n <= List.length l -> List.length (Py.slice a (a + n) l) = n.
Proof.
  intros Hb. unfold Py.slice.
  rewrite length_firstn, length_skipn. lia.
Qed.

(** What the generator yields once the header is accepted: one string
    per started 20-byte group of the body. *)
Lemma iter_mth_header (body : Py.bytes) :
  iter_mth (MAGIC ++ body)
  = (map (fun j => hex (group body j))
         (seq 0 ((List.length body + 19) / 20)),
     None).
Proof.
  unfold iter_mth.
  replace (Py.bytes_eqb (Py.slice 0 6 (MAGIC ++ body)) MAGIC) with true
    by (symmetry; apply bytes_eqb_eq; reflexivity).
  simpl negb. cbv iota. f_equal.
  rewrite length_app.
  change (List.length MAGIC) with 6.
  rewrite (range_count 20) by lia.
  replace (List.length body + 20 - 1) with (List.length body + 19) by lia.
  rewrite map_map. apply map_ext. intros j.
  unfold group. apply f_equal.
  exact (slice_after_prefix MAGIC body (20 * j) 20).
Qed.

Lemma length_append (s t : string) :
  String.length (String.append s t) = String.length s + String.length t.
Proof. induction s as [|c s IH]; simpl; [reflexivity | now rewrite IH]. Qed.

Lemma hex_length (data : Py.bytes) :
  String.length (hex data) = 2 * List.length data.
Proof.
  induction data as [|b data IH]; [reflexivity|].
  cbn [hex]. rewrite length_append, IH. simpl. lia.
Qed.

Lemma hex_byte_lower (b : byte) : lower_hex (hex_byte b) = true.
Proof. destruct b; reflexivity. Qed.

Lemma all_append (p : ascii -> bool) (s t : string) :
  Py.all p (String.append s t) = Py.all p s && Py.all p t.
Proof.
  induction s as [|c s IH]; simpl; [reflexivity|].
  destruct (p c); [exact IH | reflexivity].
Qed.

Lemma hex_lower (data : Py.bytes) : lower_hex (hex data) = true.
Proof.
  induction data as [|b data IH]; [reflexivity|].
  cbn [hex]. unfold lower_hex in *.
  rewrite all_append, IH.
  change (lower_hex (hex_byte b) && true = true).
  now rewrite hex_byte_lower.
Qed.

Lemma group_length (body : Py.bytes) (j : nat) :
  20 * j + 20 <= List.length body -> List.length (group body j) = 20.
Proof. intros Hj. unfold group. now apply slice_length. Qed.

Lemma group_cons (h rest : Py.bytes) (j : nat) :
  List.length h = 20 -> group (h ++ rest) (S j) = group rest j.
Proof.
  intros Hh. unfold group.
  replace (20 * S j) with (List.length h + 20 * j) by lia.
  apply slice_after_prefix.
Qed.

Lemma group_first (h rest : Py.bytes) :
  List.length h = 20 -> group (h ++ rest) 0 = h.
Proof.
  intros Hh. unfold group, Py.slice. simpl skipn.
  replace (20 * 0 + 20 - 20 * 0) with (List.length h + 0) by lia.
  rewrite firstn_app_2. simpl. apply app_nil_r.
Qed.

Lemma groups_of_concat (hashes : list Py.bytes) :
  Forall (fun h => List.length h = 20) hashes ->
  map (fun j => hex (group (List.concat hashes) j))
      (seq 0 (List.length hashes))
  = map hex hashes.
Proof.
  induction 1 as [|h hashes Hh _ IH]; [reflexivity|].
  cbn [List.length seq map List.concat].
  rewrite group_first by assumption. f_equal.
  rewrite <- seq_shift, map_map. rewrite <- IH.
  apply map_ext. intros j. now rewrite group_cons.
Qed.

Lemma concat_length_20 (hashes : list Py.bytes) :
  Forall (fun h => List.length h = 20) hashes ->
  List.length (List.concat hashes) = 20 * List.length hashes.
Proof.
  induction 1 as [|h hashes Hh _ IH]; [reflexivity|].
  cbn [List.concat List.length]. rewrite length_app. lia.
Qed.

(** With a trailing fragment of [k] bytes the decoder yields one string
    more than there are complete groups. *)
Lemma iter_mth_fragment_yields (body : Py.bytes) (N k : nat) :
  List.length body = 20 * N + k ->
  0 < k < 20 ->
  iter_mth (MAGIC ++ body)
  = (map (fun j => hex (group body j)) (seq 0 N)
       ++ [hex (skipn (20 * N) body)],
     None).
Proof.
  intros Hlen Hk.
  assert (Hcount : (List.length body + 19) / 20 = N + 1).
  { symmetry. apply Nat.div_unique with (r := k - 1); lia. }
  rewrite iter_mth_header, Hcount, seq_app, map_app. cbn [seq map].
  change (0 + N) with N.
  unfold group at 2. rewrite (slice_to_end body) by lia. reflexivity.
Qed.

(** The decoder on an index with a trailing fragment, in general: on
    the header followed by [20*N + k] bytes with [0 < k < 20] it raises
    nothing and yields [N + 1] strings, the hexadecimal strings of the
    [N] complete 20-byte groups, in order, and then one more, shorter
    string, the [2*k] hexadecimal digits of the [k] trailing bytes.  The
    fragment is neither dropped nor refused, although it is not a
    hash. *)
Theorem iter_mth_trailing_fragment (body : Py.bytes) (N k : nat) :
  List.length body = 20 * N + k ->
  0 < k < 20 ->
  iter_mth (MAGIC ++ body)
  = (map (fun j => hex (group body j)) (seq 0 N)
       ++ [hex (skipn (20 * N) body)],
     None)
  /\ List.length (yields (iter_mth (MAGIC ++ body))) = N + 1
  /\ Forall (fun j => List.length (group body j) = 20) (seq 0 N)
  /\ String.length (hex (skipn (20 * N) body)) = 2 * k.
Proof.
  intros Hlen Hk.
  pose proof (iter_mth_fragment_yields body N k Hlen Hk) as Hyield.
  split; [exact Hyield|].
  split.
  { rewrite Hyield. unfold yields. cbn [fst].
    rewrite length_app, length_map, length_seq. reflexivity. }
  split.
  { apply Forall_forall. intros j Hj. apply in_seq in Hj.
    apply group_length. lia. }
  rewrite hex_length, length_skipn. lia.
Qed.

Lemma iter_mth_rejects (data : Py.bytes) :
  firstn 6 data <> MAGIC ->
  iter_mth data = ([], Some (RuntimeError "Invalid index.mth")).
Proof.
  intros Hne. unfold iter_mth, Py.slice. simpl skipn.
  destruct (Py.bytes_eqb (firstn (6 - 0) data) MAGIC) eqn:E; [|reflexivity].
  apply bytes_eqb_eq in E. contradiction.
Qed.

(** C2: an input whose first six bytes are not the header makes the
    decoder raise before it yields anything, and so does every input
    shorter than six bytes, the empty one included; an input that starts
    with the header never makes it raise. *)
Theorem iter_mth_format_check (data : Py.bytes) :
  (firstn 6 data <> MAGIC ->
   iter_mth data = ([], Some (RuntimeError "Invalid index.mth")))
  /\ (List.length data < 6 ->
      iter_mth data = ([], Some (RuntimeError "Invalid index.mth")))
  /\ (firstn 6 data = MAGIC -> raised (iter_mth data) = None).
Proof.
  split; [apply iter_mth_rejects|]. split.
  - intros Hshort. apply iter_mth_rejects. intros Heq.
    apply (f_equal (@List.length byte)) in Heq.
    rewrite length_firstn in Heq.
    change (List.length MAGIC) with 6 in Heq. lia.
  - intros Heq. unfold iter_mth, Py.slice. simpl skipn.
    replace (Py.bytes_eqb (firstn (6 - 0) data) MAGIC) with true
      by (symmetry; apply bytes_eqb_eq; exact Heq).
    reflexivity.
Qed.

Lemma iter_mth_encode (hashes : list Py.bytes) :
  Forall (fun h => List.length h = 20) hashes ->
  iter_mth (encode hashes) = (map hex hashes, None).
Proof.
  intros H20.
  unfold encode. rewrite iter_mth_header, concat_length_20 by assumption.
  replace ((20 * List.length hashes + 19) / 20) with (List.length hashes)
    by (apply Nat.div_unique with (r := 19); lia).
  now rewrite groups_of_concat.
Qed.

Lemma hex_of_hashes (hashes : list Py.bytes) :
  Forall (fun h => List.length h = 20) hashes ->
  Forall (fun s => String.length s = 40 /\ lower_hex s = true)
         (map hex hashes).
Proof.
  intros H20. apply Forall_map. revert H20. apply Forall_impl.
  intros h Hh. rewrite hex_length, Hh. split; [reflexivity|apply hex_lower].
Qed.

(** C3: for hashes of 20 bytes each, the empty sequence included,
    decoding the header followed by the hashes yields the hexadecimal
    strings of these hashes, in the same order and with no error; each
    is 40 characters long and made of lowercase hexadecimal digits. *)
Theorem decode_encode (hashes : list Py.bytes) :
  Forall (fun h => List.length h = 20) hashes ->
  iter_mth (encode hashes) = (map hex hashes, None)
  /\ Forall (fun s => String.length s = 40 /\ lower_hex s = true)
            (map hex hashes).
Proof.
  intros H20. split; [now apply iter_mth_encode|now apply hex_of_hashes].
Qed.

(** * Reasoning about runs *)

(** ** Lists of names *)

Lemma contains_In (x : string) (l : list string) :
  Py.contains x l = true <-> In x l.
Proof.
  induction l as [|y l IH]; simpl; [split; [discriminate|tauto]|].
  destruct (String.eqb_spec y x) as [->|Hne].
  - split; auto.
  - rewrite IH. split; [auto|]. intros [Heq|Hin]; [contradiction|exact Hin].
Qed.

Lemma contains_not_In (x : string) (l : list string) :
  Py.contains x l = false <-> ~ In x l.
Proof.
  rewrite <- contains_In. destruct (Py.contains x l); split; congruence.
Qed.

Lemma remove_incl (x y : string) (l : list string) :
  In y (Py.remove x l) -> In y l.
Proof.
  induction l as [|z l IH]; simpl; [tauto|].
  destruct (String.eqb z x); simpl; intuition.
Qed.

Lemma remove_other (x y : string) (l : list string) :
  y <> x -> In y l -> In y (Py.remove x l).
Proof.
  intros Hne. induction l as [|z l IH]; simpl; [tauto|].
  destruct (String.eqb_spec z x) as [->|Hzx]; simpl.
  - intros [Heq|Hin]; [congruence|exact Hin].
  - intuition.
Qed.

Lemma remove_NoDup (x : string) (l : list string) :
  NoDup l -> NoDup (Py.remove x l).
Proof.
  induction 1 as [|z l Hz Hl IH]; simpl; [constructor|].
  destruct (String.eqb z x); [exact Hl|].
  constructor; [|exact IH].
  intros Hin. apply Hz. eapply remove_incl, Hin.
Qed.

Lemma remove_gone (x : string) (l : list string) :
  NoDup l -> ~ In x (Py.remove x l).
Proof.
  induction 1 as [|z l Hz Hl IH]; simpl; [tauto|].
  destruct (String.eqb_spec z x) as [->|Hzx]; [exact Hz|].
  simpl. intuition.
Qed.

Lemma triple_ret {A : Type} (P : state -> Prop) (a : A) Q E :
  (forall s, P s -> Q a s) -> triple P (ret a) Q E.
Proof. intros H s Hs. exact (H s Hs). Qed.

Lemma triple_raise {A : Type} (P : state -> Prop) (e : exn)
    (Q : A -> state -> Prop) E :
  (forall s, P s -> E s) -> triple P (raise e) Q E.
Proof. intros H s Hs. exact (H s Hs). Qed.

Lemma triple_lift {A : Type} (P : state -> Prop) (r : result A) Q E :
  (forall s, P s -> match r with Ok a => Q a s | Raise _ => E s end) ->
  triple P (lift r) Q E.
Proof. intros H s Hs. specialize (H s Hs). unfold lift. now destruct r. Qed.

Lemma triple_modify (P : state -> Prop) (f : state -> state) Q E :
  (forall s, P s -> Q tt (f s)) -> triple P (modify f) Q E.
Proof. intros H s Hs. exact (H s Hs). Qed.

Lemma triple_get (P : state -> Prop) Q E :
  (forall s, P s -> Q s s) -> triple P get_state Q E.
Proof. intros H s Hs. exact (H s Hs). Qed.

Lemma triple_bind {A B : Type} (P : state -> Prop) (c : M A)
    (k : A -> M B) (Q1 : A -> state -> Prop) Q E :
  triple P c Q1 E ->
  (forall a, triple (Q1 a) (k a) Q E) ->
  triple P (bind c k) Q E.
Proof.
  intros Hc Hk s Hs. specialize (Hc s Hs). unfold bind.
  destruct (c s) as [[a|e] s']; [exact (Hk a s' Hc) | exact Hc].
Qed.

Lemma triple_conseq {A : Type} (P P' : state -> Prop) (c : M A)
    (Q Q' : A -> state -> Prop) (E E' : state -> Prop) :
  triple P' c Q' E' ->
  (forall s, P s -> P' s) ->
  (forall a s, Q' a s -> Q a s) ->
  (forall s, E' s -> E s) ->
  triple P c Q E.
Proof.
  intros Hc HP HQ HE s Hs. specialize (Hc s (HP s Hs)).
  destruct (c s) as [[a|e] s']; auto.
Qed.

Lemma triple_for_each {A : Type} (I : state -> Prop) (body : A -> M unit)
    (l : list A) (E : state -> Prop) :
  (forall x, In x l -> triple I (body x) (fun _ => I) E) ->
  triple I (for_each body l) (fun _ => I) E.
Proof.
  induction l as [|x l IH]; intros Hbody.
  - apply triple_ret. auto.
  - cbn [for_each].
    apply triple_bind with (Q1 := fun _ => I).
    + apply Hbody. now left.
    + intros _. apply IH. intros y Hy. apply Hbody. now right.
Qed.

Lemma for_each_app {A : Type} (body : A -> M unit) (l1 l2 : list A)
    (s : state) :
  for_each body (l1 ++ l2) s = (for_each body l1 ;; for_each body l2) s.
Proof.
  revert s. induction l1 as [|x l1 IH]; intros s.
  - cbn. unfold bind, ret. now destruct (for_each body l2 s) as [[[]|e] s'].
  - cbn [app for_each]. unfold bind.
    destruct (body x s) as [[[]|e] s']; [|reflexivity].
    rewrite IH. reflexivity.
Qed.

Lemma plan_of_set_fs (f : directory -> directory) (s : state) :
  plan_of s = plan_of (set_fs f s).
Proof. reflexivity. Qed.

Lemma triple_open_wb (P : state -> Prop) (name : string) :
  plan_only P -> triple P (open_wb name) (fun _ => P) P.
Proof.
  intros HP s Hs. unfold open_wb, bind, get_state.
  destruct (lookup name (fs s)) as [[c|]|]; cbn;
    try exact Hs; exact (HP _ _ (plan_of_set_fs _ s) Hs).
Qed.

Lemma triple_write_all (P : state -> Prop) (name : string) content E :
  plan_only P -> triple P (write_all name content) (fun _ => P) E.
Proof. intros HP s Hs. exact (HP _ _ (plan_of_set_fs _ s) Hs). Qed.

Lemma triple_os_remove (P : state -> Prop) (name : string) :
  plan_only P -> triple P (os_remove name) (fun _ => P) P.
Proof.
  intros HP s Hs. unfold os_remove, bind, get_state.
  destruct (lookup name (fs s)) as [[c|]|]; cbn;
    try exact Hs; exact (HP _ _ (plan_of_set_fs _ s) Hs).
Qed.

Lemma triple_for_gen {A : Type} (I : state -> Prop) (body : A -> M unit)
    (g : generator A) (E : state -> Prop) :
  (forall x, In x (yields g) -> triple I (body x) (fun _ => I) E) ->
  (forall s, I s -> raised g <> None -> E s) ->
  triple I (for_gen body g) (fun _ => I) E.
Proof.
  intros Hbody Hraise. unfold for_gen.
  apply triple_bind with (Q1 := fun _ => I).
  - now apply triple_for_each.
  - intros _. destruct (raised g) as [e|].
    + apply triple_raise. intros s Hs. apply Hraise; [exact Hs|discriminate].
    + apply triple_ret. auto.
Qed.

Section SyncProofs.

Variable requests_post : string -> option Py.bytes.
Variable requests_get : string -> option Py.bytes.
Variable sha1 : Py.bytes -> Py.bytes.
Variables delete generate redownload : bool.


Lemma triple_download (P : state -> Prop) (media_index file_hash : string) :
  plan_only P ->
  triple P (download requests_get media_index file_hash) (fun _ => P) P.
Proof.
  intros HP. unfold download.
  apply triple_bind with (Q1 := fun _ => P); [now apply triple_open_wb|].
  intros _. apply triple_bind with (Q1 := fun _ => P).
  - apply triple_lift. intros s Hs. now destruct (http _).
  - intros body. now apply triple_write_all.
Qed.

(** The two ways through the loop body: the hash is found and not
    fetched again, or it is fetched. *)
Lemma triple_process (P Q : state -> Prop) (media_index h : string) :
  plan_only Q ->
  (forall s, P s ->
     In h (list_files s) -> redownload = false ->
     Q (set_list_files (Py.remove h) (incr_found s))) ->
  (forall s, P s ->
     In h (list_files s) -> redownload = true ->
     Q (incr_download h (set_list_files (Py.remove h) (incr_found s)))) ->
  (forall s, P s ->
     ~ In h (list_files s) ->
     Q (incr_download h (incr_found s))) ->
  triple P (process_hash requests_get redownload media_index h) (fun _ => Q) Q.
Proof.
  intros HQ Hskip Hagain Hnew s Hs.
  pose proof (triple_download Q media_index h HQ) as Hdl.
  unfold process_hash, bind, modify, get_state, ret.
  cbn [list_files incr_found].
  destruct (Py.contains h (list_files s)) eqn:Hc.
  - apply contains_In in Hc.
    destruct redownload eqn:Hr; cbn [negb].
    + exact (Hdl _ (Hagain s Hs Hc eq_refl)).
    + exact (Hskip s Hs Hc eq_refl).
  - apply contains_not_In in Hc.
    exact (Hdl _ (Hnew s Hs Hc)).
Qed.

Lemma triple_delete_file (P Q : state -> Prop) (file_name : string) :
  plan_only Q ->
  (forall s, P s -> not_hash_name file_name = true -> Q s) ->
  (forall s, P s -> not_hash_name file_name = false ->
     Q (incr_delete file_name s)) ->
  triple P (delete_file file_name) (fun _ => Q) Q.
Proof.
  intros HQ Hkeep Hdel. unfold delete_file.
  destruct (not_hash_name file_name) eqn:Hn.
  - apply triple_ret. auto.
  - apply triple_bind with (Q1 := fun _ => Q).
    + apply triple_modify. auto.
    + intros _. now apply triple_os_remove.
Qed.

Lemma triple_finish (P : state -> Prop) (mth_bytes : Py.bytes) :
  plan_only P -> triple P (write_index sha1 generate mth_bytes) (fun _ => P) P.
Proof.
  intros HP. unfold write_index.
  destruct generate.
  - apply triple_bind with (Q1 := fun _ => P); [now apply triple_open_wb|].
    intros _. apply triple_bind with (Q1 := fun s0 s => P s).
    + apply triple_get. auto.
    + intros s0. now apply triple_write_all.
  - apply triple_bind with (Q1 := fun _ => P); [now apply triple_open_wb|].
    intros _. now apply triple_write_all.
Qed.

Lemma run_unfold (media_index_arg : string) (destination : directory) :
  run requests_post requests_get sha1 delete generate redownload
      media_index_arg destination
  = match with_slash media_index_arg with
    | Raise e => (Raise e, listed destination)
    | Ok media_index =>
        match requests_post (String.append media_index "index.mth") with
        | None => (Raise ConnectionError, listed destination)
        | Some mth_bytes =>
            phases requests_get sha1 delete generate redownload
           media_index mth_bytes (listed destination)
        end
    end.
Proof.
  unfold run, main, bind at 1 2, modify, lift. fold (listed destination).
  destruct (with_slash media_index_arg) as [media_index|e]; [|reflexivity].
  unfold bind at 1. unfold http.
  destruct (requests_post _) as [mth_bytes|]; reflexivity.
Qed.

(** The rule for the three phases, for assertions on the plan: the
    first loop takes [P] to [I], [J] holds along the deletion loop,
    and [Q] holds however the run ends. *)
Lemma triple_phases (P I J Q : state -> Prop)
    (media_index : string) (mth_bytes : Py.bytes) :
  plan_only Q ->
  (forall s, J s -> Q s) ->
  triple P (for_gen (process_hash requests_get redownload media_index)
                    (iter_mth mth_bytes))
         (fun _ => I) Q ->
  (forall s, I s -> J s) ->
  (forall s0 n, I s0 -> In n (list_files s0) ->
     triple (fun s => J s /\ list_files s = list_files s0)
            (delete_file n)
            (fun _ s => J s /\ list_files s = list_files s0) Q) ->
  triple P (phases requests_get sha1 delete generate redownload
           media_index mth_bytes) (fun _ => Q) Q.
Proof.
  intros HQ HJQ Hloop HIJ Hdel. unfold phases.
  apply triple_bind with (Q1 := fun _ => I); [exact Hloop|].
  intros _. apply triple_bind with (Q1 := fun _ => Q).
  - destruct delete.
    + intros s Hs. unfold bind at 1, get_state.
      assert (Hfe : triple (fun s' => J s' /\ list_files s' = list_files s)
                      (for_each delete_file (list_files s))
                      (fun _ s' => J s' /\ list_files s' = list_files s) Q).
      { apply triple_for_each. intros n Hn. now apply Hdel. }
      specialize (Hfe s (conj (HIJ s Hs) eq_refl)).
      destruct (for_each delete_file (list_files s) s) as [[[]|e] s'].
      * apply HJQ, Hfe.
      * exact Hfe.
    + apply triple_ret. auto.
  - intros _. now apply triple_finish.
Qed.


Lemma triple_final (P Q : state -> Prop) (c : M unit) (s : state) :
  triple P c (fun _ => Q) Q -> P s -> Q (snd (c s)).
Proof.
  intros Hc Hs. specialize (Hc s Hs). now destruct (c s) as [[[]|e] s'].
Qed.

Ltac plan_only_tac :=
  let s := fresh "s" in
  let s' := fresh "s'" in
  let Heq := fresh "Heq" in
  intros s s' Heq; destruct s, s'; unfold plan_of in Heq; cbn in Heq |- *;
  inversion Heq; subst; exact (fun H => H).

(** C6: in every run on a destination that holds each name once, no
    name is both fetched and deleted: [to_download] and [to_delete] of
    the state the run leaves are disjoint, however the run ends. *)
Theorem download_delete_disjoint
    (media_index_arg : string) (destination : directory) :
  NoDup (listdir destination) ->
  forall name : string,
    In name (to_download (snd (run requests_post requests_get sha1 delete
                                   generate redownload media_index_arg
                                   destination))) ->
    ~ In name (to_delete (snd (run requests_post requests_get sha1 delete
                                   generate redownload media_index_arg
                                   destination))).
Proof.
  intros Hnodup. rewrite run_unfold.
  destruct (with_slash media_index_arg) as [media_index|e];
    [|intros name []].
  destruct (requests_post _) as [mth_bytes|]; [|intros name []].
  set (I := fun s : state =>
    NoDup (list_files s)
    /\ (forall x, In x (to_download s) -> ~ In x (list_files s))
    /\ to_delete s = []).
  set (J := fun s : state =>
    (forall x, In x (to_download s) -> ~ In x (list_files s))
    /\ (forall x, In x (to_delete s) -> In x (list_files s))).
  set (Q := fun s : state =>
    forall x, In x (to_download s) -> ~ In x (to_delete s)).
  assert (HQ : plan_only Q) by (unfold Q; plan_only_tac).
  assert (HIQ : forall s, I s -> Q s).
  { intros s (_ & _ & Hdel) x _. rewrite Hdel. auto. }
  assert (HJQ : forall s, J s -> Q s).
  { intros s [Hd Hl] x Hx Hx'. exact (Hd x Hx (Hl x Hx')). }
  apply (triple_final I Q).
  - apply triple_phases with (I := I) (J := J); try assumption.
    + apply triple_for_gen; [|auto].
      intros h _.
      apply triple_conseq with (P' := I) (Q' := fun _ => I) (E' := I); auto.
      apply triple_process.
      * unfold I. plan_only_tac.
      * intros s (Hnd & Hd & Hdel) Hin _. cbn. repeat split.
        -- now apply remove_NoDup.
        -- intros x Hx Hx'. exact (Hd x Hx (remove_incl _ _ _ Hx')).
        -- exact Hdel.
      * intros s (Hnd & Hd & Hdel) Hin _. cbn. repeat split.
        -- now apply remove_NoDup.
        -- intros x Hx Hx'. apply in_app_or in Hx.
           destruct Hx as [Hx|[<-|[]]].
           ++ exact (Hd x Hx (remove_incl _ _ _ Hx')).
           ++ exact (remove_gone _ _ Hnd Hx').
        -- exact Hdel.
      * intros s (Hnd & Hd & Hdel) Hnin. cbn. repeat split.
        -- exact Hnd.
        -- intros x Hx Hx'. apply in_app_or in Hx.
           destruct Hx as [Hx|[<-|[]]]; [exact (Hd x Hx Hx')|auto].
        -- exact Hdel.
    + intros s (_ & Hd & Hdel). split; [exact Hd|].
      intros x. rewrite Hdel. intros [].
    + intros s0 n _ Hn.
      apply triple_conseq
        with (P' := fun s => J s /\ list_files s = list_files s0)
             (Q' := fun _ s => J s /\ list_files s = list_files s0)
             (E' := fun s => J s /\ list_files s = list_files s0);
        auto; [|intros s [HJ _]; auto].
      apply triple_delete_file.
      * unfold J. plan_only_tac.
      * auto.
      * intros s [[Hd Hl] Heq] _. cbn. repeat split; auto.
        intros x Hx. apply in_app_or in Hx.
        destruct Hx as [Hx|[<-|[]]]; [auto|].
        cbn. now rewrite Heq.
  - unfold I, listed. cbn. repeat split; auto.
Qed.

Lemma iter_mth_single (a : Py.bytes) :
  0 < List.length a <= 20 -> iter_mth (MAGIC ++ a) = ([hex a], None).
Proof.
  intros Ha. rewrite iter_mth_header.
  replace ((List.length a + 19) / 20) with 1
    by (apply Nat.div_unique with (r := List.length a - 1); lia).
  cbn [seq map]. unfold group.
  rewrite slice_to_end by lia. reflexivity.
Qed.

(** C8: when the remote index lists the single hash [A], [A] is among
    the local names and redownload is on, [A] is fetched (it is the one
    entry of [to_download], [download_count] is 1) and it has left the
    working list of local names, so that it is not deleted, whatever the
    other options are and however the run ends. *)
Theorem redownload_forces_download
    (media_index_arg media_index : string) (destination : directory)
    (a : Py.bytes) :
  redownload = true ->
  with_slash media_index_arg = Ok media_index ->
  requests_post (String.append media_index "index.mth") = Some (MAGIC ++ a) ->
  0 < List.length a <= 20 ->
  NoDup (listdir destination) ->
  In (hex a) (listdir destination) ->
  forall s : state,
    s = snd (run requests_post requests_get sha1 delete generate redownload
                 media_index_arg destination) ->
    to_download s = [hex a]
    /\ download_count s = 1
    /\ found_count s = 1
    /\ ~ In (hex a) (list_files s)
    /\ ~ In (hex a) (to_delete s).
Proof.
  intros Hre Hslash Hpost Ha Hnodup Hlocal s ->.
  rewrite run_unfold, Hslash, Hpost.
  set (A := hex a) in *.
  set (I := fun s : state =>
    to_download s = [A] /\ download_count s = 1 /\ found_count s = 1
    /\ ~ In A (list_files s) /\ to_delete s = []).
  set (J := fun s : state =>
    to_download s = [A] /\ download_count s = 1 /\ found_count s = 1
    /\ ~ In A (list_files s)
    /\ (forall x, In x (to_delete s) -> In x (list_files s))).
  set (Q := fun s : state =>
    to_download s = [A] /\ download_count s = 1 /\ found_count s = 1
    /\ ~ In A (list_files s) /\ ~ In A (to_delete s)).
  assert (HIQ : forall s, I s -> Q s).
  { intros s (H1 & H2 & H3 & H4 & H5). unfold Q. rewrite H5. auto 6. }
  apply (triple_final (eq (listed destination)) Q); [|reflexivity].
  apply triple_phases with (I := I) (J := J).
  - unfold Q. plan_only_tac.
  - intros s (H1 & H2 & H3 & H4 & H5). unfold Q. auto 8.
  - unfold for_gen. rewrite iter_mth_single by assumption.
    cbn [yields raised fst snd for_each].
    apply triple_bind with (Q1 := fun _ => I);
      [|intros _; apply triple_ret; auto].
    apply triple_bind with (Q1 := fun _ => I);
      [|intros _; apply triple_ret; auto].
    apply triple_conseq
      with (P' := eq (listed destination)) (Q' := fun _ => I) (E' := I);
      auto.
    apply triple_process.
    + unfold I. plan_only_tac.
    + intros s _ _ Hfalse. congruence.
    + intros s <- _ _. unfold I. cbn. repeat split; auto.
      now apply remove_gone.
    + intros s <- Hnin. now destruct Hnin.
  - intros s (H1 & H2 & H3 & H4 & H5). unfold J. rewrite H5.
    repeat split; auto. intros x [].
  - intros s0 n _ Hn.
    apply triple_conseq
      with (P' := fun s => J s /\ list_files s = list_files s0)
           (Q' := fun _ s => J s /\ list_files s = list_files s0)
           (E' := fun s => J s /\ list_files s = list_files s0);
      auto.
    + apply triple_delete_file.
      * unfold J. plan_only_tac.
      * auto.
      * intros s [(H1 & H2 & H3 & H4 & H5) Heq] _. cbn.
        repeat split; auto.
        intros x Hx. apply in_app_or in Hx.
        destruct Hx as [Hx|[<-|[]]]; [auto|]. cbn. now rewrite Heq.
    + intros s [(H1 & H2 & H3 & H4 & H5) _]. unfold Q. auto 8.
Qed.

Lemma bind_ok_inv {A B : Type} (c : M A) (k : A -> M B) (s s' : state)
    (b : B) :
  bind c k s = (Ok b, s') ->
  exists a s1, c s = (Ok a, s1) /\ k a s1 = (Ok b, s').
Proof.
  unfold bind. destruct (c s) as [[a|e] s1]; [eauto|discriminate].
Qed.

Lemma lookup_write_file (name : string) (content : Py.bytes)
    (d : directory) :
  lookup name (write_file name content d) = Some (File content).
Proof.
  induction d as [|[n x] d IH]; cbn.
  - now rewrite String.eqb_refl.
  - destruct (String.eqb n name) eqn:E; cbn; rewrite E; auto.
Qed.

Lemma hashed_files_write_file (name : string) (content : Py.bytes)
    (d : directory) :
  not_hash_name name = true ->
  hashed_files (write_file name content d) = hashed_files d.
Proof.
  intros Hname. induction d as [|[n x] d IH]; cbn.
  - now rewrite Hname.
  - destruct (String.eqb_spec n name) as [->|Hne]; cbn.
    + rewrite Hname. now destruct x.
    + rewrite IH. reflexivity.
Qed.

Lemma hash_entries_hashed_files (entries : directory) (written : Py.bytes) :
  hash_entries sha1 entries written
  = written ++ List.concat (map sha1 (hashed_files entries)).
Proof.
  revert written.
  induction entries as [|[n x] entries IH]; intros written; cbn.
  - now rewrite app_nil_r.
  - destruct x as [content|]; cbn.
    + destruct (not_hash_name n); cbn; rewrite IH; [reflexivity|].
      now rewrite <- app_assoc.
    + rewrite orb_true_r. apply IH.
Qed.

Lemma phases_ok_inv (media_index : string) (mth_bytes : Py.bytes)
    (s0 s : state) :
  phases requests_get sha1 delete generate redownload
           media_index mth_bytes s0 = (Ok tt, s) ->
  exists s2, write_index sha1 generate mth_bytes s2 = (Ok tt, s).
Proof.
  unfold phases. intros H.
  apply bind_ok_inv in H. destruct H as (_ & s1 & _ & H).
  apply bind_ok_inv in H. destruct H as (_ & s2 & _ & H).
  eauto.
Qed.

Lemma open_wb_ok_inv (name : string) (s s' : state) :
  open_wb name s = (Ok tt, s') -> s' = set_fs (write_file name []) s.
Proof.
  unfold open_wb, bind, get_state, modify, raise.
  destruct (lookup name (fs s)) as [[c|]|];
    intros H; inversion H; reflexivity.
Qed.

(** C9: a run without [--generate] that reaches its end leaves in
    [index.mth] exactly the bytes that the server answered for the
    index, whatever they are: the file is not re-encoded from the
    decoded hashes. *)
Theorem remote_index_verbatim
    (media_index_arg media_index : string) (destination : directory)
    (mth_bytes : Py.bytes) (s : state) :
  generate = false ->
  with_slash media_index_arg = Ok media_index ->
  requests_post (String.append media_index "index.mth") = Some mth_bytes ->
  run requests_post requests_get sha1 delete generate redownload
      media_index_arg destination = (Ok tt, s) ->
  lookup "index.mth" (fs s) = Some (File mth_bytes).
Proof.
  intros Hgen Hslash Hpost. rewrite run_unfold, Hslash, Hpost.
  intros Hrun. apply phases_ok_inv in Hrun. destruct Hrun as [s2 Hrun].
  unfold write_index in Hrun. rewrite Hgen in Hrun.
  apply bind_ok_inv in Hrun. destruct Hrun as ([] & s3 & _ & Hrun).
  unfold write_all, modify in Hrun. injection Hrun as <-.
  cbn. apply lookup_write_file.
Qed.

(** C10: a run with [--generate] that reaches its end leaves a
    well-formed [index.mth]: the header followed by the 20-byte SHA-1
    digests of the [M] hash-named regular files of the directory, in
    directory order, [6 + 20*M] bytes in all; decoding it raises nothing
    and yields [M] strings of 40 characters, the hexadecimal digests. *)
Theorem generated_index_well_formed
    (media_index_arg : string) (destination : directory) (s : state) :
  (forall content, List.length (sha1 content) = 20) ->
  generate = true ->
  run requests_post requests_get sha1 delete generate redownload
      media_index_arg destination = (Ok tt, s) ->
  exists index : Py.bytes,
    lookup "index.mth" (fs s) = Some (File index)
    /\ index = encode (map sha1 (hashed_files (fs s)))
    /\ firstn 6 index = MAGIC
    /\ List.length index = 6 + 20 * List.length (hashed_files (fs s))
    /\ iter_mth index = (map hex (map sha1 (hashed_files (fs s))), None)
    /\ Forall (fun h => String.length h = 40) (yields (iter_mth index)).
Proof.
  intros Hsha Hgen. rewrite run_unfold.
  destruct (with_slash media_index_arg) as [media_index|e]; [|discriminate].
  destruct (requests_post _) as [mth_bytes|]; [|discriminate].
  intros Hrun. apply phases_ok_inv in Hrun. destruct Hrun as [s2 Hrun].
  unfold write_index in Hrun. rewrite Hgen in Hrun.
  apply bind_ok_inv in Hrun. destruct Hrun as ([] & s3 & Hopen & Hrun).
  apply open_wb_ok_inv in Hopen.
  unfold bind, get_state, write_all, modify in Hrun. injection Hrun as <-.
  cbn [fs set_fs].
  assert (Hother : not_hash_name "index.mth" = true) by reflexivity.
  rewrite hashed_files_write_file by assumption.
  set (digests := map sha1 (hashed_files (fs s3))).
  assert (H20 : Forall (fun h => List.length h = 20) digests).
  { apply Forall_map, Forall_forall. intros content _. apply Hsha. }
  exists (encode digests).
  pose proof (iter_mth_encode digests H20) as Hdec.
  pose proof (hex_of_hashes digests H20) as Hhex.
  split.
  { rewrite hash_entries_hashed_files. apply lookup_write_file. }
  split; [reflexivity|].
  split; [reflexivity|].
  split.
  { unfold encode. rewrite length_app, concat_length_20 by assumption.
    unfold digests. now rewrite length_map. }
  split; [exact Hdec|].
  rewrite Hdec. cbn [yields fst].
  revert Hhex. apply Forall_impl. tauto.
Qed.

Lemma triple_for_each_app {A : Type} (P R Q : state -> Prop)
    (E : state -> Prop) (body : A -> M unit) (l1 l2 : list A) :
  triple P (for_each body l1) (fun _ => R) E ->
  triple R (for_each body l2) (fun _ => Q) E ->
  triple P (for_each body (l1 ++ l2)) (fun _ => Q) E.
Proof.
  intros H1 H2 s Hs. rewrite for_each_app.
  revert s Hs. change (triple P (for_each body l1 ;; for_each body l2)
                              (fun _ => Q) E).
  apply triple_bind with (Q1 := fun _ => R); auto.
Qed.

Lemma all_any (p : ascii -> bool) (s : string) :
  Py.all p s = true -> s <> EmptyString -> Py.any p s = true.
Proof.
  destruct s as [|c s]; [congruence|]. cbn.
  destruct (p c); [reflexivity|discriminate].
Qed.

(** The hexadecimal string of a complete group passes the name filter
    of the deletion and regeneration loops. *)
Lemma hash_name_of_group (g : Py.bytes) :
  List.length g = 20 -> not_hash_name (hex g) = false.
Proof.
  intros Hg. unfold not_hash_name.
  rewrite hex_length, Hg. cbn [Nat.mul Nat.add Nat.eqb negb orb].
  rewrite all_any; [reflexivity|apply hex_lower|].
  intros Hempty. apply (f_equal String.length) in Hempty.
  rewrite hex_length, Hg in Hempty. discriminate.
Qed.

(** The shape of what the decoder yields: hash names, possibly followed
    by the string of a trailing fragment. *)
Lemma yields_shape (mth_bytes : Py.bytes) :
  exists full tail,
    yields (iter_mth mth_bytes) = full ++ tail
    /\ Forall (fun y => not_hash_name y = false) full
    /\ (tail = []
        \/ (0 < (List.length mth_bytes - 6) mod 20
            /\ tail = [hex (skipn (List.length mth_bytes
                                   - (List.length mth_bytes - 6) mod 20)
                                  mth_bytes)])).
Proof.
  destruct (list_eq_dec byte_eq_dec (firstn 6 mth_bytes) MAGIC) as [Hm|Hm].
  - set (body := skipn 6 mth_bytes).
    assert (Hsplit : mth_bytes = MAGIC ++ body).
    { rewrite <- Hm. symmetry. apply firstn_skipn. }
    assert (Hlen : List.length mth_bytes = 6 + List.length body).
    { rewrite Hsplit at 1. now rewrite length_app. }
    pose proof (Nat.div_mod_eq (List.length body) 20) as Hdm.
    pose proof (Nat.mod_upper_bound (List.length body) 20) as Hk.
    set (N := List.length body / 20) in *.
    set (k := List.length body mod 20) in *.
    assert (Hfull : Forall (fun y => not_hash_name y = false)
                      (map (fun j => hex (group body j)) (seq 0 N))).
    { apply Forall_map, Forall_forall. intros j Hj. apply in_seq in Hj.
      apply hash_name_of_group, group_length. lia. }
    exists (map (fun j => hex (group body j)) (seq 0 N)).
    replace (List.length mth_bytes - 6) with (List.length body) by lia.
    fold k.
    destruct (Nat.eq_dec k 0) as [Hk0|Hk0].
    + exists []. rewrite app_nil_r. split; [|split; [exact Hfull|now left]].
      rewrite Hsplit, iter_mth_header.
      replace ((List.length body + 19) / 20) with N
        by (apply Nat.div_unique with (r := 19); lia).
      reflexivity.
    + exists [hex (skipn (20 * N) body)].
      assert (Hy := iter_mth_fragment_yields body N k).
      specialize (Hy ltac:(lia) ltac:(lia)).
      split; [|split; [exact Hfull|right; split; [lia|]]].
      * rewrite Hsplit, Hy. reflexivity.
      * unfold body. rewrite skipn_skipn. do 3 f_equal. lia.
  - exists [], []. split; [|split; [constructor|now left]].
    now rewrite (iter_mth_rejects mth_bytes Hm).
Qed.

(** How far the foreign files are safe: a local entry whose name fails
    the name filter (not 40 characters long, or without any hexadecimal
    digit) is never deleted, and it cannot be fetched unless redownload
    is on and the remote index ends in a fragment of fewer than 20 bytes
    whose hexadecimal string is that name, the string that the decoder
    should not have yielded. *)
Theorem foreign_names_preserved
    (media_index_arg : string) (destination : directory) (name : string) :
  not_hash_name name = true ->
  In name (listdir destination) ->
  forall s : state,
    s = snd (run requests_post requests_get sha1 delete generate redownload
                 media_index_arg destination) ->
    ~ In name (to_delete s)
    /\ (In name (to_download s) ->
        redownload = true
        /\ exists media_index mth_bytes,
             with_slash media_index_arg = Ok media_index
             /\ requests_post (String.append media_index "index.mth")
                = Some mth_bytes
             /\ 0 < (List.length mth_bytes - 6) mod 20
             /\ name = hex (skipn (List.length mth_bytes
                                   - (List.length mth_bytes - 6) mod 20)
                                  mth_bytes)).
Proof.
  intros Hforeign Hlocal s ->. rewrite run_unfold.
  destruct (with_slash media_index_arg) as [media_index|e];
    [|cbn; tauto].
  destruct (requests_post _) as [mth_bytes|] eqn:Hpost; [|cbn; tauto].
  destruct (yields_shape mth_bytes) as (full & tail & Hy & Hfull & Htail).
  set (Target := redownload = true
    /\ exists media_index' mth_bytes',
         Ok media_index = Ok media_index'
         /\ requests_post (String.append media_index' "index.mth")
            = Some mth_bytes'
         /\ 0 < (List.length mth_bytes' - 6) mod 20
         /\ name = hex (skipn (List.length mth_bytes'
                               - (List.length mth_bytes' - 6) mod 20)
                              mth_bytes')).
  set (I1 := fun s : state =>
    In name (list_files s) /\ ~ In name (to_download s) /\ to_delete s = []).
  set (I2 := fun s : state =>
    (In name (to_download s) -> Target) /\ to_delete s = []).
  set (J := fun s : state =>
    (In name (to_download s) -> Target)
    /\ Forall (fun x => not_hash_name x = false) (to_delete s)).
  set (Q := fun s : state =>
    ~ In name (to_delete s) /\ (In name (to_download s) -> Target)).
  assert (HQ : plan_only Q) by (unfold Q; plan_only_tac).
  assert (H1Q : forall s, I1 s -> Q s).
  { intros s (_ & Hd & Hdel). unfold Q. rewrite Hdel. cbn. tauto. }
  assert (H2Q : forall s, I2 s -> Q s).
  { intros s (Hd & Hdel). unfold Q. rewrite Hdel. cbn. tauto. }
  assert (HJQ : forall s, J s -> Q s).
  { intros s (Hd & Hdel). split; [|exact Hd].
    intros Hin. rewrite Forall_forall in Hdel.
    specialize (Hdel name Hin). congruence. }
  apply (triple_final I1 Q); [|unfold I1, listed; cbn; auto].
  apply triple_phases with (I := I2) (J := J); try assumption.
  - unfold for_gen. rewrite Hy.
    apply triple_bind with (Q1 := fun _ => I2).
    + apply triple_for_each_app with (R := I1).
      * apply triple_for_each. intros h Hh.
        rewrite Forall_forall in Hfull. specialize (Hfull h Hh).
        assert (Hne : name <> h) by congruence.
        apply triple_conseq with (P' := I1) (Q' := fun _ => I1) (E' := I1);
          auto.
        apply triple_process.
        -- unfold I1. plan_only_tac.
        -- intros s (Hl & Hd & Hdel) _ _. cbn. repeat split; auto.
           now apply remove_other.
        -- intros s (Hl & Hd & Hdel) _ _. cbn. repeat split; auto.
           ++ now apply remove_other.
           ++ intros Hin. apply in_app_or in Hin.
              destruct Hin as [Hin|[Heq|[]]]; auto.
        -- intros s (Hl & Hd & Hdel) _. cbn. repeat split; auto.
           intros Hin. apply in_app_or in Hin.
           destruct Hin as [Hin|[Heq|[]]]; auto.
      * destruct Htail as [->|[Hk ->]].
        { apply triple_ret. intros s (Hl & Hd & Hdel). split; tauto. }
        cbn [for_each].
        apply triple_bind with (Q1 := fun _ => I2);
          [|intros _; apply triple_ret; auto].
        apply triple_conseq with (P' := I1) (Q' := fun _ => I2) (E' := I2);
          auto.
        apply triple_process.
        -- unfold I2. plan_only_tac.
        -- intros s (Hl & Hd & Hdel) _ _. cbn. split; tauto.
        -- intros s (Hl & Hd & Hdel) _ Hre. cbn. split; [|exact Hdel].
           intros Hin. apply in_app_or in Hin.
           destruct Hin as [Hin|[Heq|[]]]; [tauto|].
           split; [exact Hre|].
           exists media_index, mth_bytes. auto.
        -- intros s (Hl & Hd & Hdel) Hnin. cbn. split; [|exact Hdel].
           intros Hin. apply in_app_or in Hin.
           destruct Hin as [Hin|[Heq|[]]]; [tauto|].
           subst name. contradiction.
    + intros _. destruct (raised (iter_mth mth_bytes)).
      * apply triple_raise. auto.
      * apply triple_ret. auto.
  - intros s (Hd & Hdel). split; [exact Hd|]. rewrite Hdel. constructor.
  - intros s0 n _ _.
    apply triple_conseq
      with (P' := fun s => J s /\ list_files s = list_files s0)
           (Q' := fun _ s => J s /\ list_files s = list_files s0)
           (E' := fun s => J s /\ list_files s = list_files s0);
      auto; [|intros s [HJ _]; auto].
    apply triple_delete_file.
    + unfold J. plan_only_tac.
    + auto.
    + intros s [[Hd Hdel] Heq] Hn.
      split; [split; [exact Hd|]|exact Heq].
      cbn. apply Forall_app. split; [exact Hdel|]. now constructor.
Qed.

Lemma triple_ok {A : Type} (P : state -> Prop) (c : M A) Q E
    (s s' : state) (a : A) :
  triple P c Q E -> P s -> c s = (Ok a, s') -> Q a s'.
Proof. intros Hc Hs Hrun. specialize (Hc s Hs). now rewrite Hrun in Hc. Qed.

Lemma process_skip (media_index h : string) (s : state) :
  redownload = false ->
  In h (list_files s) ->
  process_hash requests_get redownload media_index h s
  = (Ok tt, set_list_files (Py.remove h) (incr_found s)).
Proof.
  intros Hre Hin. apply contains_In in Hin.
  unfold process_hash, bind, modify, get_state, ret.
  cbn [list_files incr_found]. now rewrite Hin, Hre.
Qed.

Lemma process_counts_found (media_index h : string) (s : state) :
  found_count (snd (process_hash requests_get redownload media_index h s))
  = S (found_count s).
Proof.
  apply (triple_final (eq s) (fun s' => found_count s' = S (found_count s)));
    [|reflexivity].
  apply triple_process; [plan_only_tac|..]; now intros s0 <-.
Qed.

Lemma loop_counts_found (media_index : string) (l : list string)
    (s s' : state) :
  for_each (process_hash requests_get redownload media_index) l s
  = (Ok tt, s') ->
  found_count s' = found_count s + List.length l.
Proof.
  revert s. induction l as [|h l IH]; intros s Hrun.
  - injection Hrun as <-. cbn. lia.
  - cbn [for_each] in Hrun. apply bind_ok_inv in Hrun.
    destruct Hrun as ([] & s1 & Hstep & Hrun).
    rewrite (IH _ Hrun).
    pose proof (process_counts_found media_index h s) as Hf.
    rewrite Hstep in Hf. cbn [snd] in Hf. rewrite Hf. cbn. lia.
Qed.

(** C7: without redownload, a hash [h] that is among the local names and
    occurs twice in the remote index is processed twice.  At its first
    occurrence it is found: nothing is fetched and [h] leaves the working
    list of local names.  At its second occurrence it is no longer found:
    it is fetched.  [found_count] counts both occurrences,
    [download_count] the second only.  [pre] and [mid] are the hashes
    before and between the two occurrences. *)
Theorem duplicate_hash_fetched_at_second_occurrence
    (media_index h : string) (pre mid : list string) (s0 s1 s3 : state) :
  redownload = false ->
  NoDup (list_files s0) ->
  In h (list_files s0) ->
  ~ In h pre ->
  ~ In h mid ->
  for_each (process_hash requests_get redownload media_index) pre s0
  = (Ok tt, s1) ->
  for_each (process_hash requests_get redownload media_index) mid
           (snd (process_hash requests_get redownload media_index h s1))
  = (Ok tt, s3) ->
  forall s2 s4 : state,
    s2 = snd (process_hash requests_get redownload media_index h s1) ->
    s4 = snd (process_hash requests_get redownload media_index h s3) ->
    (fst (process_hash requests_get redownload media_index h s1) = Ok tt
     /\ fs s2 = fs s1
     /\ list_files s2 = Py.remove h (list_files s1)
     /\ ~ In h (list_files s2)
     /\ found_count s2 = S (found_count s1)
     /\ download_count s2 = download_count s1
     /\ to_download s2 = to_download s1)
    /\ (found_count s4 = S (found_count s3)
        /\ download_count s4 = S (download_count s3)
        /\ to_download s4 = to_download s3 ++ [h]
        /\ list_files s4 = list_files s3)
    /\ found_count s4
       = found_count s0 + List.length (pre ++ h :: mid ++ [h]).
Proof.
  intros Hre Hnodup Hlocal Hpre Hmid Hrun1 Hrun3 s2 s4 -> ->.
  (* up to the first occurrence, [h] stays in the working list *)
  assert (H1 : NoDup (list_files s1) /\ In h (list_files s1)).
  { refine (triple_ok
              (fun s => NoDup (list_files s) /\ In h (list_files s)) _
              (fun _ s => NoDup (list_files s) /\ In h (list_files s))
              (fun _ => True) s0 s1 tt _ (conj Hnodup Hlocal) Hrun1).
    apply triple_for_each. intros x Hx.
    assert (Hne : h <> x) by (intros ->; exact (Hpre Hx)).
    apply triple_conseq
      with (P' := fun s => NoDup (list_files s) /\ In h (list_files s))
           (Q' := fun _ s => NoDup (list_files s) /\ In h (list_files s))
           (E' := fun s => NoDup (list_files s) /\ In h (list_files s));
      auto.
    apply triple_process; [plan_only_tac|..].
    - intros s [Hn Hi] _ _. cbn.
      split; [now apply remove_NoDup|now apply remove_other].
    - intros s [Hn Hi] _ _. cbn.
      split; [now apply remove_NoDup|now apply remove_other].
    - intros s [Hn Hi] _. cbn. auto. }
  destruct H1 as [Hnodup1 Hlocal1].
  rewrite (process_skip media_index h s1 Hre Hlocal1) in *.
  cbn [fst snd] in *.
  set (s2 := set_list_files (Py.remove h) (incr_found s1)) in *.
  assert (Hgone2 : ~ In h (list_files s2)).
  { unfold s2. cbn. now apply remove_gone. }
  (* from there on, [h] stays out of it *)
  assert (Hgone3 : ~ In h (list_files s3)).
  { refine (triple_ok
              (fun s => ~ In h (list_files s)) _
              (fun _ s => ~ In h (list_files s))
              (fun _ => True) s2 s3 tt _ Hgone2 Hrun3).
    apply triple_for_each. intros x Hx.
    apply triple_conseq
      with (P' := fun s => ~ In h (list_files s))
           (Q' := fun _ s => ~ In h (list_files s))
           (E' := fun s => ~ In h (list_files s));
      auto.
    apply triple_process; [plan_only_tac|..].
    - intros s Hn _ _ Hin. cbn in Hin. exact (Hn (remove_incl _ _ _ Hin)).
    - intros s Hn _ _ Hin. cbn in Hin. exact (Hn (remove_incl _ _ _ Hin)).
    - intros s Hn _. exact Hn. }
  assert (H4 :
    found_count
      (snd (process_hash requests_get redownload media_index h s3))
      = S (found_count s3)
    /\ download_count
         (snd (process_hash requests_get redownload media_index h s3))
       = S (download_count s3)
    /\ to_download
         (snd (process_hash requests_get redownload media_index h s3))
       = to_download s3 ++ [h]
    /\ list_files
         (snd (process_hash requests_get redownload media_index h s3))
       = list_files s3).
  { apply (triple_final (eq s3)
             (fun s => found_count s = S (found_count s3)
                       /\ download_count s = S (download_count s3)
                       /\ to_download s = to_download s3 ++ [h]
                       /\ list_files s = list_files s3));
      [|reflexivity].
    apply triple_process; [plan_only_tac|..].
    - intros s <- Hin _. contradiction.
    - intros s <- Hin _. contradiction.
    - intros s <- _. cbn. auto. }
  split; [|split; [exact H4|]].
  - unfold s2. cbn. repeat split; auto.
  - destruct H4 as [-> _].
    rewrite (loop_counts_found _ _ _ _ Hrun3).
    unfold s2. cbn [found_count set_list_files incr_found].
    rewrite (loop_counts_found _ _ _ _ Hrun1).
    rewrite length_app. cbn [List.length]. rewrite length_app. cbn. lia.
Qed.

End SyncProofs.

(** * Further properties of the codec *)

Lemma group_nonempty (body : Py.bytes) (j : nat) :
  20 * j < List.length body ->
  0 < List.length (group body j) <= 20.
Proof.
  intros Hj. unfold group, Py.slice.
  rewrite length_firstn, length_skipn. lia.
Qed.

Lemma header_split (data : Py.bytes) :
  firstn 6 data = MAGIC ->
  data = MAGIC ++ skipn 6 data
  /\ List.length data = 6 + List.length (skipn 6 data).
Proof.
  intros Hm.
  assert (Hsplit : data = MAGIC ++ skipn 6 data).
  { rewrite <- Hm. symmetry. apply firstn_skipn. }
  split; [exact Hsplit|].
  rewrite Hsplit at 1. now rewrite length_app.
Qed.

Lemma lower_hex_excludes (c : ascii) (s : string) :
  Py.char_in c HEXDIGIT = false -> lower_hex s = true ->
  Py.char_in c s = false.
Proof.
  intros Hc. unfold lower_hex.
  induction s as [|d s IH]; cbn [Py.all Py.char_in]; [reflexivity|].
  destruct (Py.char_in d HEXDIGIT) eqn:Hd; intros Hs; [|discriminate Hs].
  destruct (Ascii.eqb_spec c d) as [->|Hne]; [congruence|auto].
Qed.

(** Every string the decoder yields, on any input, is the hexadecimal
    string of 1 to 20 bytes: it is not empty, it has an even length of
    at most 40, it is made of lowercase hexadecimal digits, and so it
    holds neither a path separator nor a dot. *)
Theorem iter_mth_yields_hex_names (data : Py.bytes) :
  Forall (fun y =>
            0 < String.length y <= 40
            /\ Nat.Even (String.length y)
            /\ lower_hex y = true
            /\ Py.char_in "/"%char y = false
            /\ Py.char_in "."%char y = false)
         (yields (iter_mth data)).
Proof.
  destruct (list_eq_dec byte_eq_dec (firstn 6 data) MAGIC) as [Hm|Hm].
  - destruct (header_split data Hm) as [Hsplit _].
    rewrite Hsplit, iter_mth_header. cbn [yields fst].
    set (body := skipn 6 data).
    apply Forall_map, Forall_forall. intros j Hj. apply in_seq in Hj.
    assert (Hlt : 20 * j < List.length body).
    { destruct Hj as [_ Hj].
      pose proof (Nat.div_mod_eq (List.length body + 19) 20) as Hdm.
      pose proof (Nat.mod_upper_bound (List.length body + 19) 20). lia. }
    pose proof (group_nonempty body j Hlt) as Hlen.
    rewrite hex_length.
    split; [lia|]. split; [now exists (List.length (group body j))|].
    split; [apply hex_lower|].
    split; apply lower_hex_excludes; auto using hex_lower.
  - rewrite (iter_mth_rejects data Hm). constructor.
Qed.

(** On an input with the header, the decoder yields one string per
    started group of 20 bytes, that is the ceiling of [(len - 6) / 20]
    strings, and every string but the last has 40 characters. *)
Theorem iter_mth_count (data : Py.bytes) :
  firstn 6 data = MAGIC ->
  List.length (yields (iter_mth data)) = (List.length data - 6 + 19) / 20
  /\ forall i, S i < List.length (yields (iter_mth data)) ->
       String.length (nth i (yields (iter_mth data)) EmptyString) = 40.
Proof.
  intros Hm. destruct (header_split data Hm) as [Hsplit Hlen].
  set (body := skipn 6 data) in *.
  replace (List.length data - 6) with (List.length body) by lia.
  rewrite Hsplit, iter_mth_header. cbn [yields fst].
  rewrite length_map, length_seq. split; [reflexivity|].
  intros i Hi.
  rewrite (nth_indep _ EmptyString (hex (group body 0)))
    by (rewrite length_map, length_seq; lia).
  rewrite (map_nth (fun j => hex (group body j))), seq_nth by lia.
  cbn [Nat.add].
  rewrite hex_length, group_length; [reflexivity|].
  pose proof (Nat.div_mod_eq (List.length body + 19) 20) as Hdm.
  pose proof (Nat.mod_upper_bound (List.length body + 19) 20). lia.
Qed.

(** ** The decoder loses nothing *)

Lemma hex_digit_inj (a b : nat) :
  a < 16 -> b < 16 -> hex_digit a = hex_digit b -> a = b.
Proof.
  intros Ha Hb.
  do 16 (destruct a as [|a];
         [do 16 (destruct b as [|b];
                 [first [reflexivity | discriminate]|]); lia|]).
  lia.
Qed.

Lemma to_nat_inj (b1 b2 : byte) :
  Byte.to_nat b1 = Byte.to_nat b2 -> b1 = b2.
Proof.
  intros Heq.
  pose proof (Byte.of_to_nat b1) as H1.
  rewrite Heq, Byte.of_to_nat in H1. congruence.
Qed.

Lemma hex_byte_inj (b1 b2 : byte) : hex_byte b1 = hex_byte b2 -> b1 = b2.
Proof.
  unfold hex_byte. intros Heq. injection Heq as Hhigh Hlow.
  pose proof (Byte.to_nat_bounded b1) as Hb1.
  pose proof (Byte.to_nat_bounded b2) as Hb2.
  apply to_nat_inj.
  assert (Hq : Byte.to_nat b1 / 16 = Byte.to_nat b2 / 16).
  { apply hex_digit_inj; [| |exact Hhigh];
      apply Nat.Div0.div_lt_upper_bound; lia. }
  assert (Hr : Byte.to_nat b1 mod 16 = Byte.to_nat b2 mod 16).
  { apply hex_digit_inj; [| |exact Hlow]; apply Nat.mod_upper_bound; lia. }
  rewrite (Nat.div_mod_eq (Byte.to_nat b1) 16).
  rewrite (Nat.div_mod_eq (Byte.to_nat b2) 16). now rewrite Hq, Hr.
Qed.

Lemma hex_cons (x : byte) (a : Py.bytes) :
  hex (x :: a)
  = String (hex_digit (Byte.to_nat x / 16))
      (String (hex_digit (Byte.to_nat x mod 16)) (hex a)).
Proof. reflexivity. Qed.

Lemma hex_inj (a b : Py.bytes) : hex a = hex b -> a = b.
Proof.
  revert b. induction a as [|x a IH]; intros [|y b] Heq.
  - reflexivity.
  - rewrite hex_cons in Heq. discriminate Heq.
  - rewrite hex_cons in Heq. discriminate Heq.
  - rewrite !hex_cons in Heq.
    injection Heq as Hhigh Hlow Hrest.
    f_equal; [|now apply IH].
    apply hex_byte_inj. unfold hex_byte.
    f_equal; [exact Hhigh|f_equal; exact Hlow].
Qed.

Lemma group_skip (body : Py.bytes) (j : nat) :
  group body (S j) = group (skipn 20 body) j.
Proof.
  unfold group, Py.slice. rewrite skipn_skipn.
  f_equal; [lia|f_equal; lia].
Qed.

Lemma concat_groups (n : nat) (body : Py.bytes) :
  List.length body <= 20 * n ->
  List.concat (map (group body) (seq 0 n)) = body.
Proof.
  revert body. induction n as [|n IH]; intros body Hlen.
  - destruct body; [reflexivity|cbn in Hlen; lia].
  - cbn [seq map List.concat].
    rewrite <- seq_shift, map_map.
    rewrite (map_ext _ (group (skipn 20 body)) (group_skip body)).
    rewrite IH by (rewrite length_skipn; lia).
    unfold group, Py.slice. cbn [skipn Nat.mul Nat.add Nat.sub].
    apply firstn_skipn.
Qed.

(** Two inputs with the header that decode to the same strings are the
    same bytes: nothing of the index, a trailing fragment included, is
    lost by decoding. *)
Theorem iter_mth_injective (data1 data2 : Py.bytes) :
  firstn 6 data1 = MAGIC ->
  firstn 6 data2 = MAGIC ->
  yields (iter_mth data1) = yields (iter_mth data2) ->
  data1 = data2.
Proof.
  intros H1 H2.
  destruct (header_split data1 H1) as [Hs1 _].
  destruct (header_split data2 H2) as [Hs2 _].
  set (b1 := skipn 6 data1) in *. set (b2 := skipn 6 data2) in *.
  rewrite Hs1, Hs2, !iter_mth_header. cbn [yields fst].
  set (n1 := (List.length b1 + 19) / 20).
  set (n2 := (List.length b2 + 19) / 20).
  intros Heq.
  assert (Hn : n1 = n2).
  { apply (f_equal (@List.length string)) in Heq.
    now rewrite !length_map, !length_seq in Heq. }
  rewrite <- Hn in Heq.
  assert (Hgroups : map (group b1) (seq 0 n1) = map (group b2) (seq 0 n1)).
  { apply map_ext_in. intros j Hj.
    apply hex_inj.
    rewrite map_ext_in_iff in Heq. exact (Heq j Hj). }
  f_equal.
  rewrite <- (concat_groups n1 b1), <- (concat_groups n1 b2).
  - now rewrite Hgroups.
  - rewrite Hn. unfold n2.
    pose proof (Nat.div_mod_eq (List.length b2 + 19) 20).
    pose proof (Nat.mod_upper_bound (List.length b2 + 19) 20). lia.
  - unfold n1.
    pose proof (Nat.div_mod_eq (List.length b1 + 19) 20).
    pose proof (Nat.mod_upper_bound (List.length b1 + 19) 20). lia.
Qed.

(** * Further properties of a run *)

(** ** The directory operations *)

Lemma lookup_listdir (name : string) (d : directory) :
  lookup name d <> None <-> In name (listdir d).
Proof.
  induction d as [|[n x] d IH]; cbn.
  - split; [congruence|tauto].
  - destruct (String.eqb_spec n name) as [->|Hne].
    + split; [auto|congruence].
    + rewrite IH. split; [auto|]. intros [Heq|Hin]; [contradiction|exact Hin].
Qed.

Lemma lookup_write_other (name other : string) (content : Py.bytes)
    (d : directory) :
  name <> other -> lookup name (write_file other content d) = lookup name d.
Proof.
  intros Hne. induction d as [|[n x] d IH]; cbn.
  - destruct (String.eqb_spec other name); [congruence|reflexivity].
  - destruct (String.eqb_spec n other) as [->|Hno]; cbn.
    + destruct (String.eqb_spec other name); [congruence|reflexivity].
    + destruct (String.eqb n name); [reflexivity|exact IH].
Qed.

Lemma lookup_unlink_other (name other : string) (d : directory) :
  name <> other -> lookup name (unlink other d) = lookup name d.
Proof.
  intros Hne. induction d as [|[n x] d IH]; cbn; [reflexivity|].
  destruct (String.eqb_spec n other) as [->|Hno]; cbn.
  - destruct (String.eqb_spec other name); [congruence|reflexivity].
  - destruct (String.eqb n name); [reflexivity|exact IH].
Qed.

Lemma listdir_write_file (name other : string) (content : Py.bytes)
    (d : directory) :
  In name (listdir (write_file other content d))
  <-> name = other \/ In name (listdir d).
Proof.
  induction d as [|[n x] d IH]; cbn.
  - intuition.
  - destruct (String.eqb_spec n other) as [->|Hno]; cbn.
    + intuition.
    + rewrite IH. intuition.
Qed.

Lemma write_file_NoDup (name : string) (content : Py.bytes) (d : directory) :
  NoDup (listdir d) -> NoDup (listdir (write_file name content d)).
Proof.
  induction d as [|[n x] d IH]; cbn; intros Hnd.
  - repeat constructor. intros [].
  - inversion Hnd as [|? ? Hn Hd]; subst.
    destruct (String.eqb_spec n name) as [->|Hno]; cbn.
    + now constructor.
    + constructor; [|auto].
      intros Hin. apply listdir_write_file in Hin.
      destruct Hin as [Heq|Hin]; [congruence|contradiction].
Qed.

Lemma listdir_unlink (name other : string) (d : directory) :
  In name (listdir (unlink other d)) -> In name (listdir d).
Proof.
  induction d as [|[n x] d IH]; cbn; [tauto|].
  destruct (String.eqb n other); cbn; intuition.
Qed.

Lemma listdir_unlink_other (name other : string) (d : directory) :
  name <> other -> In name (listdir d) -> In name (listdir (unlink other d)).
Proof.
  intros Hne. induction d as [|[n x] d IH]; cbn; [tauto|].
  destruct (String.eqb_spec n other) as [->|Hno]; cbn.
  - intros [Heq|Hin]; [congruence|exact Hin].
  - intuition.
Qed.

Lemma unlink_NoDup (name : string) (d : directory) :
  NoDup (listdir d) -> NoDup (listdir (unlink name d)).
Proof.
  induction d as [|[n x] d IH]; cbn; intros Hnd; [constructor|].
  inversion Hnd as [|? ? Hn Hd]; subst.
  destruct (String.eqb n name); cbn; [exact Hd|].
  constructor; [|auto].
  intros Hin. apply Hn. eapply listdir_unlink, Hin.
Qed.

Lemma unlink_gone (name : string) (d : directory) :
  NoDup (listdir d) -> ~ In name (listdir (unlink name d)).
Proof.
  induction d as [|[n x] d IH]; cbn; intros Hnd; [tauto|].
  inversion Hnd as [|? ? Hn Hd]; subst.
  destruct (String.eqb_spec n name) as [->|Hno]; cbn; [exact Hn|].
  intros [Heq|Hin]; [contradiction|]. now apply IH.
Qed.

Lemma write_file_twice (name : string) (c1 c2 : Py.bytes) (d : directory) :
  write_file name c2 (write_file name c1 d) = write_file name c2 d.
Proof.
  induction d as [|[n x] d IH]; cbn.
  - now rewrite String.eqb_refl.
  - destruct (String.eqb n name) eqn:E; cbn; rewrite E; [reflexivity|].
    now rewrite IH.
Qed.

Lemma remove_In_iff (x y : string) (l : list string) :
  NoDup l -> (In y (Py.remove x l) <-> In y l /\ y <> x).
Proof.
  intros Hnd. split.
  - intros Hin. split; [eapply remove_incl, Hin|].
    intros ->. exact (remove_gone _ _ Hnd Hin).
  - intros [Hin Hne]. now apply remove_other.
Qed.

(** ** Loops whose invariant depends on what has been processed *)

Lemma triple_for_each_from {A : Type} (I : list A -> state -> Prop)
    (body : A -> M unit) (E : state -> Prop) (l pre : list A) :
  (forall p x q, l = p ++ x :: q ->
     triple (I (pre ++ p)) (body x) (fun _ => I (pre ++ p ++ [x])) E) ->
  triple (I pre) (for_each body l) (fun _ => I (pre ++ l)) E.
Proof.
  revert pre. induction l as [|x l IH]; intros pre Hbody.
  - apply triple_ret. intros s Hs. now rewrite app_nil_r.
  - cbn [for_each].
    apply triple_bind with (Q1 := fun _ => I (pre ++ [x])).
    + specialize (Hbody [] x l eq_refl). now rewrite app_nil_r in Hbody.
    + intros _.
      replace (pre ++ x :: l) with ((pre ++ [x]) ++ l)
        by (now rewrite <- app_assoc).
      apply IH. intros p y q ->.
      specialize (Hbody (x :: p) y q eq_refl).
      now rewrite <- !app_assoc.
Qed.

Lemma triple_for_each_prefix {A : Type} (I : list A -> state -> Prop)
    (body : A -> M unit) (E : state -> Prop) (l : list A) :
  (forall p x q, l = p ++ x :: q ->
     triple (I p) (body x) (fun _ => I (p ++ [x])) E) ->
  triple (I []) (for_each body l) (fun _ => I l) E.
Proof. intros Hbody. now apply (triple_for_each_from I body E l []). Qed.

Section RunProofs.

Variable requests_post : string -> option Py.bytes.
Variable requests_get : string -> option Py.bytes.
Variable sha1 : Py.bytes -> Py.bytes.
Variables delete generate redownload : bool.

(** ** The steps of a run, case by case *)

Lemma download_cases (media_index h : string) (s : state) :
  match download requests_get media_index h s with
  | (Ok _, s') =>
      exists body,
        requests_get (String.append media_index h) = Some body
        /\ lookup h (fs s) <> Some Dir
        /\ s' = set_fs (write_file h body) s
  | (Raise _, s') =>
      (lookup h (fs s) = Some Dir /\ s' = s)
      \/ (requests_get (String.append media_index h) = None
          /\ s' = set_fs (write_file h []) s)
  end.
Proof.
  unfold download, open_wb, bind, get_state, lift, http, write_all, modify,
    raise.
  assert (Hwrite : forall body,
    set_fs (write_file h body) (set_fs (write_file h []) s)
    = set_fs (write_file h body) s).
  { intros body. unfold set_fs. cbn. now rewrite write_file_twice. }
  destruct (lookup h (fs s)) as [[c|]|] eqn:Hl;
    [| now left | ];
    (destruct (requests_get (String.append media_index h)) as [body|];
     [exists body; rewrite Hwrite; repeat split; congruence | now right]).
Qed.

Lemma triple_process_gen (P Q E : state -> Prop) (media_index h : string) :
  (forall s, P s ->
     In h (list_files s) -> redownload = false ->
     Q (set_list_files (Py.remove h) (incr_found s))) ->
  (forall s body, P s ->
     (In h (list_files s) -> redownload = true) ->
     requests_get (String.append media_index h) = Some body ->
     lookup h (fs s) <> Some Dir ->
     Q (set_fs (write_file h body) (entered h s))) ->
  (forall s, P s ->
     (In h (list_files s) -> redownload = true) ->
     lookup h (fs s) = Some Dir ->
     E (entered h s)) ->
  (forall s, P s ->
     (In h (list_files s) -> redownload = true) ->
     requests_get (String.append media_index h) = None ->
     E (set_fs (write_file h []) (entered h s))) ->
  triple P (process_hash requests_get redownload media_index h)
         (fun _ => Q) E.
Proof.
  intros Hskip Hok Hdir Hnet s Hs.
  assert (Hfetch : (In h (list_files s) -> redownload = true) ->
    match download requests_get media_index h (entered h s) with
    | (Ok _, s') => Q s'
    | (Raise _, s') => E s'
    end).
  { intros Hwhy.
    pose proof (download_cases media_index h (entered h s)) as Hd.
    assert (Hfs : fs (entered h s) = fs s).
    { unfold entered. now destruct (Py.contains h (list_files s)). }
    rewrite Hfs in Hd.
    destruct (download requests_get media_index h (entered h s))
      as [[[]|e] s'].
    - destruct Hd as (body & Hget & Hl & ->). now apply Hok.
    - destruct Hd as [[Hl ->]|[Hget ->]]; [now apply Hdir|now apply Hnet]. }
  unfold process_hash, bind, modify, get_state, ret.
  unfold entered in Hfetch. cbn [list_files incr_found].
  destruct (Py.contains h (list_files s)) eqn:Hc.
  - apply contains_In in Hc.
    destruct redownload eqn:Hr; cbn [negb].
    + now apply Hfetch.
    + now apply Hskip.
  - apply contains_not_In in Hc.
    apply Hfetch. intros Hin. contradiction.
Qed.

Lemma triple_delete_gen (P Q E : state -> Prop) (file_name : string) :
  (forall s, P s -> not_hash_name file_name = true -> Q s) ->
  (forall s content, P s ->
     not_hash_name file_name = false ->
     lookup file_name (fs s) = Some (File content) ->
     Q (set_fs (unlink file_name) (incr_delete file_name s))) ->
  (forall s, P s ->
     not_hash_name file_name = false ->
     lookup file_name (fs s) = Some Dir \/ lookup file_name (fs s) = None ->
     E (incr_delete file_name s)) ->
  triple P (delete_file file_name) (fun _ => Q) E.
Proof.
  intros Hkeep Hdel Hfail s Hs. unfold delete_file.
  destruct (not_hash_name file_name) eqn:Hn; [now apply Hkeep|].
  unfold os_remove, bind, modify, get_state, raise.
  cbn [fs incr_delete].
  destruct (lookup file_name (fs s)) as [[c|]|] eqn:Hl.
  - now apply (Hdel s c).
  - apply Hfail; auto.
  - apply Hfail; auto.
Qed.

Lemma triple_finish_gen (P Q E : state -> Prop) (mth_bytes : Py.bytes) :
  (forall s, P s -> lookup "index.mth" (fs s) = Some Dir -> E s) ->
  (forall s, P s ->
     lookup "index.mth" (fs s) <> Some Dir ->
     Q (set_fs (write_file "index.mth"
                  (index_content sha1 generate mth_bytes
                     (write_file "index.mth" [] (fs s))))
               s)) ->
  triple P (write_index sha1 generate mth_bytes) (fun _ => Q) E.
Proof.
  intros Hdir Hok s Hs.
  assert (Hwrite : forall content,
    set_fs (write_file "index.mth" content)
           (set_fs (write_file "index.mth" []) s)
    = set_fs (write_file "index.mth" content) s).
  { intros content. unfold set_fs. cbn. now rewrite write_file_twice. }
  specialize (Hdir s Hs). specialize (Hok s Hs).
  unfold index_content in Hok.
  unfold write_index, open_wb, bind, get_state, write_all, modify, raise.
  destruct generate;
    (destruct (lookup "index.mth" (fs s)) as [[c|]|] eqn:Hl;
     [ cbn [fs set_fs]; rewrite Hwrite; apply Hok; congruence
     | now apply Hdir
     | cbn [fs set_fs]; rewrite Hwrite; apply Hok; congruence ]).
Qed.

Lemma triple_delete_phase (I J E : state -> Prop) :
  (delete = false -> forall s, I s -> J s) ->
  (delete = true -> forall s0, I s0 ->
     triple (eq s0) (for_each delete_file (list_files s0)) (fun _ => J) E) ->
  triple I (if delete
            then bind get_state (fun s => for_each delete_file (list_files s))
            else ret tt)
         (fun _ => J) E.
Proof.
  intros Hoff Hon. destruct delete.
  - intros s Hs. unfold bind at 1, get_state.
    exact (Hon eq_refl s Hs s eq_refl).
  - apply triple_ret. auto.
Qed.

Lemma triple_phases_gen (P I J Q E : state -> Prop)
    (media_index : string) (mth_bytes : Py.bytes) :
  triple P (for_each (process_hash requests_get redownload media_index)
                     (yields (iter_mth mth_bytes)))
         (fun _ => I) E ->
  (forall s, I s -> raised (iter_mth mth_bytes) <> None -> E s) ->
  (delete = false -> forall s, I s -> J s) ->
  (delete = true -> forall s0, I s0 ->
     triple (eq s0) (for_each delete_file (list_files s0)) (fun _ => J) E) ->
  triple J (write_index sha1 generate mth_bytes) (fun _ => Q) E ->
  triple P (phases requests_get sha1 delete generate redownload
                   media_index mth_bytes)
         (fun _ => Q) E.
Proof.
  intros Hloop Hraise Hoff Hon Hfinish. unfold phases, for_gen.
  apply triple_bind with (Q1 := fun _ => I).
  { apply triple_bind with (Q1 := fun _ => I); [exact Hloop|].
    intros _. destruct (raised (iter_mth mth_bytes)).
    - apply triple_raise. intros s Hs. apply Hraise; [exact Hs|discriminate].
    - apply triple_ret. auto. }
  intros _. apply triple_bind with (Q1 := fun _ => J).
  - now apply triple_delete_phase.
  - intros _. exact Hfinish.
Qed.


Lemma entered_fields (h : string) (s : state) :
  fs (entered h s) = fs s
  /\ to_download (entered h s) = to_download s ++ [h]
  /\ to_delete (entered h s) = to_delete s
  /\ found_count (entered h s) = S (found_count s)
  /\ download_count (entered h s) = S (download_count s)
  /\ delete_count (entered h s) = delete_count s
  /\ list_files (entered h s)
     = (if Py.contains h (list_files s)
        then Py.remove h (list_files s) else list_files s).
Proof.
  unfold entered. destruct (Py.contains h (list_files s)); cbn; auto 10.
Qed.

(** ** Properties kept by every step of a run

    A property of states that survives each elementary change of state
    that [main] makes holds of the state a run leaves, however the run
    ends: a hash found and skipped, a download entered, a write to a
    file being downloaded, a deletion counted, a file removed, and a
    write to [index.mth]. *)
Lemma run_invariant (Q : state -> Prop)
    (media_index_arg : string) (destination : directory) :
  Q (listed destination) ->
  (forall h s, Q s -> In h (list_files s) -> redownload = false ->
     Q (set_list_files (Py.remove h) (incr_found s))) ->
  (forall h s, Q s -> (In h (list_files s) -> redownload = true) ->
     Q (entered h s)) ->
  (forall h s content, Q s -> In h (to_download s) ->
     Q (set_fs (write_file h content) s)) ->
  (forall n s, delete = true -> Q s -> In n (list_files s) ->
     not_hash_name n = false ->
     Q (incr_delete n s)) ->
  (forall n s, delete = true -> Q s -> In n (list_files s) ->
     In n (to_delete s) -> not_hash_name n = false ->
     Q (set_fs (unlink n) s)) ->
  (forall s content, Q s -> Q (set_fs (write_file "index.mth" content) s)) ->
  Q (snd (run requests_post requests_get sha1 delete generate redownload
              media_index_arg destination)).
Proof.
  intros Hinit Hskip Henter Hwrite Hcount Hunlink Hindex.
  rewrite run_unfold.
  destruct (with_slash media_index_arg) as [media_index|e]; [|exact Hinit].
  destruct (requests_post _) as [mth_bytes|]; [|exact Hinit].
  assert (Hlast : forall h s, In h (to_download (entered h s))).
  { intros h s. destruct (entered_fields h s) as (_ & -> & _).
    apply in_or_app. right. now left. }
  apply (triple_final Q Q); [|exact Hinit].
  apply triple_phases_gen with (I := Q) (J := Q).
  - apply triple_for_each. intros h _.
    apply triple_process_gen; auto.
  - auto.
  - auto.
  - intros Hdel s0 Hs0.
    apply triple_conseq
      with (P' := fun s => Q s /\ list_files s = list_files s0)
           (Q' := fun _ s => Q s /\ list_files s = list_files s0)
           (E' := Q);
      [|intros s <-; auto|intros _ s [Hs _]; exact Hs|auto].
    apply triple_for_each. intros n Hn.
    apply triple_delete_gen.
    + auto.
    + intros s content [Hs Heq] Hname Hfile.
      rewrite <- Heq in Hn. split; [|exact Heq].
      apply Hunlink; auto.
      cbn. apply in_or_app. right. now left.
    + intros s [Hs Heq] Hname _. rewrite <- Heq in Hn. auto.
  - apply triple_finish_gen; auto.
Qed.

(** A run that fails before the loop over the remote hashes is entered
    has done nothing: an empty [media_index] argument raises
    [IndexError], a failed request for the index raises the request's
    error, an index without the header raises [RuntimeError]; each time
    the directory is as it was and nothing is counted. *)
Theorem run_fails_early
    (media_index_arg : string) (destination : directory) :
  (media_index_arg = EmptyString ->
   run requests_post requests_get sha1 delete generate redownload
       media_index_arg destination
   = (Raise IndexError,
      mkState destination (listdir destination) 0 0 0 [] []))
  /\ (forall media_index,
        with_slash media_index_arg = Ok media_index ->
        requests_post (String.append media_index "index.mth") = None ->
        run requests_post requests_get sha1 delete generate redownload
            media_index_arg destination
        = (Raise ConnectionError,
           mkState destination (listdir destination) 0 0 0 [] []))
  /\ (forall media_index mth_bytes,
        with_slash media_index_arg = Ok media_index ->
        requests_post (String.append media_index "index.mth")
        = Some mth_bytes ->
        firstn 6 mth_bytes <> MAGIC ->
        run requests_post requests_get sha1 delete generate redownload
            media_index_arg destination
        = (Raise (RuntimeError "Invalid index.mth"),
           mkState destination (listdir destination) 0 0 0 [] [])).
Proof.
  split; [|split].
  - intros ->. now rewrite run_unfold.
  - intros media_index Hslash Hpost. now rewrite run_unfold, Hslash, Hpost.
  - intros media_index mth_bytes Hslash Hpost Hbad.
    rewrite run_unfold, Hslash, Hpost.
    unfold phases, for_gen. rewrite (iter_mth_rejects mth_bytes Hbad).
    reflexivity.
Qed.

Lemma last_char_append_slash (s : string) :
  Py.last_char (String.append s "/") = Some "/"%char.
Proof.
  induction s as [|c s IH]; [reflexivity|].
  cbn [String.append Py.last_char].
  destruct (String.append s "/") eqn:E; [discriminate IH|exact IH].
Qed.

Lemma last_char_none (s : string) :
  Py.last_char s = None -> s = EmptyString.
Proof.
  induction s as [|c s IH]; [reflexivity|].
  cbn [Py.last_char]. destruct s as [|d s]; [discriminate|].
  intros Hlast. specialize (IH Hlast). discriminate IH.
Qed.

(** The base URL used for the requests: it is the [media_index]
    argument, with a slash appended unless it already ends in one; it
    always ends in a slash, and normalising it again changes nothing.
    Only the empty argument is refused. *)
Theorem with_slash_normalises (media_index : string) :
  media_index <> EmptyString ->
  exists url,
    with_slash media_index = Ok url
    /\ Py.last_char url = Some "/"%char
    /\ (url = media_index \/ url = String.append media_index "/")
    /\ (Py.last_char media_index = Some "/"%char -> url = media_index)
    /\ with_slash url = Ok url.
Proof.
  intros Hne. unfold with_slash.
  destruct (Py.last_char media_index) as [c|] eqn:Hlast.
  - destruct (Ascii.eqb_spec c "/"%char) as [->|Hc]; cbn [negb].
    + exists media_index. rewrite Hlast. cbn. auto.
    + exists (String.append media_index "/").
      rewrite last_char_append_slash. cbn.
      repeat split; auto. intros Heq. congruence.
  - now apply last_char_none in Hlast.
Qed.

(** Frame: whatever the options and however the run ends, an entry of
    the destination other than [index.mth] that the run neither fetched
    nor handed to [os.remove] is afterwards exactly what it was before:
    the same file content, the same directory, or still absent. *)
Theorem run_frame
    (media_index_arg : string) (destination : directory) (name : string) :
  name <> "index.mth" ->
  forall s : state,
    s = snd (run requests_post requests_get sha1 delete generate redownload
                 media_index_arg destination) ->
    ~ In name (to_download s) ->
    ~ In name (to_delete s) ->
    lookup name (fs s) = lookup name destination.
Proof.
  intros Hindex s ->.
  apply (run_invariant
           (fun s => ~ In name (to_download s) -> ~ In name (to_delete s) ->
                     lookup name (fs s) = lookup name destination)).
  - reflexivity.
  - intros h s Hs _ _. exact Hs.
  - intros h s Hs _.
    destruct (entered_fields h s) as (-> & -> & -> & _).
    intros Hd. apply Hs. intros Hin. apply Hd, in_or_app. now left.
  - intros h s content Hs Hh. cbn. intros Hd Hr.
    rewrite lookup_write_other; [now apply Hs|]. congruence.
  - intros n s _ Hs _ _. cbn. intros Hd Hr.
    apply Hs; [exact Hd|]. intros Hin. apply Hr, in_or_app. now left.
  - intros n s _ Hs _ Hn _. cbn. intros Hd Hr.
    rewrite lookup_unlink_other; [now apply Hs|]. congruence.
  - intros s content Hs. cbn. intros Hd Hr.
    rewrite lookup_write_other; [now apply Hs|exact Hindex].
Qed.

(** Nothing disappears without [--delete], and with it nothing whose
    name fails the name filter: such an entry of the destination is
    still an entry after the run, however the run ends. *)
Theorem run_keeps_entries
    (media_index_arg : string) (destination : directory) (name : string) :
  In name (listdir destination) ->
  delete = false \/ not_hash_name name = true ->
  In name (listdir (fs (snd (run requests_post requests_get sha1 delete
                                 generate redownload media_index_arg
                                 destination)))).
Proof.
  intros Hlocal Hkept.
  apply (run_invariant (fun s => In name (listdir (fs s)))).
  - exact Hlocal.
  - intros h s Hs _ _. exact Hs.
  - intros h s Hs _. now destruct (entered_fields h s) as (-> & _).
  - intros h s content Hs _. cbn. apply listdir_write_file. now right.
  - intros n s _ Hs _ _. exact Hs.
  - intros n s Hdel Hs _ _ Hn. cbn.
    apply listdir_unlink_other; [|exact Hs].
    destruct Hkept as [Hoff|Hforeign]; congruence.
  - intros s content Hs. cbn. apply listdir_write_file. now right.
Qed.

(** The counters of the summary line: a run never counts more
    downloads than hashes found, nor more hashes found than the decoder
    yields; when the run reaches its end, the number of hashes found is
    the number of strings yielded by the decoder. *)
Theorem run_counters
    (media_index_arg media_index : string) (destination : directory)
    (mth_bytes : Py.bytes) (r : result unit) (s : state) :
  with_slash media_index_arg = Ok media_index ->
  requests_post (String.append media_index "index.mth") = Some mth_bytes ->
  run requests_post requests_get sha1 delete generate redownload
      media_index_arg destination = (r, s) ->
  download_count s <= found_count s
  /\ found_count s <= List.length (yields (iter_mth mth_bytes))
  /\ (r = Ok tt ->
      found_count s = List.length (yields (iter_mth mth_bytes))).
Proof.
  intros Hslash Hpost. rewrite run_unfold, Hslash, Hpost.
  set (ys := yields (iter_mth mth_bytes)).
  set (I := fun (pre : list string) (s : state) =>
    found_count s = List.length pre /\ download_count s <= found_count s).
  set (E := fun s : state =>
    download_count s <= found_count s /\ found_count s <= List.length ys).
  assert (Hphases :
    triple (I []) (phases requests_get sha1 delete generate redownload
                          media_index mth_bytes)
           (fun _ => I ys) E).
  { apply triple_phases_gen with (I := I ys) (J := I ys).
    - apply triple_for_each_prefix. intros p x q Hl.
      assert (Hlen : List.length (p ++ [x]) <= List.length ys).
      { rewrite Hl, !length_app. cbn. lia. }
      rewrite length_app in Hlen. cbn [List.length] in Hlen.
      apply triple_process_gen.
      + intros s0 [Hf Hd] _ _. unfold I. rewrite length_app. cbn. lia.
      + intros s0 body [Hf Hd] _ _ _. unfold I. rewrite length_app.
        destruct (entered_fields x s0) as (_ & _ & _ & Hf' & Hd' & _).
        unfold set_fs. cbn [found_count download_count List.length]. lia.
      + intros s0 [Hf Hd] _ _. unfold E.
        destruct (entered_fields x s0) as (_ & _ & _ & Hf' & Hd' & _). lia.
      + intros s0 [Hf Hd] _ _. unfold E.
        destruct (entered_fields x s0) as (_ & _ & _ & Hf' & Hd' & _).
        unfold set_fs. cbn [found_count download_count List.length]. lia.
    - intros s0 [Hf Hd] _. unfold E. lia.
    - auto.
    - intros _ s0 Hs0.
      apply triple_conseq
        with (P' := I ys) (Q' := fun _ => I ys) (E' := I ys);
        [|now intros s1 <-|auto|intros s1 [Hf Hd]; unfold E; lia].
      apply triple_for_each. intros n _.
      apply triple_delete_gen; auto.
    - apply triple_finish_gen; [intros s0 [Hf Hd] _; unfold E; lia|auto]. }
  intros Hrun.
  specialize (Hphases (listed destination)).
  rewrite Hrun in Hphases.
  assert (Hstart : I [] (listed destination)) by (unfold I; cbn; lia).
  specialize (Hphases Hstart).
  destruct r as [[]|e].
  - destruct Hphases as [Hf Hd]. repeat split; lia.
  - destruct Hphases as [Hd Hf]. repeat split; [lia..|discriminate].
Qed.

Lemma yields_lower_hex (data : Py.bytes) (y : string) :
  In y (yields (iter_mth data)) -> lower_hex y = true.
Proof.
  unfold iter_mth.
  destruct (negb (Py.bytes_eqb (Py.slice 0 6 data) MAGIC)); cbn; [tauto|].
  intros Hin. apply in_map_iff in Hin. destruct Hin as (i & <- & _).
  apply hex_lower.
Qed.

Lemma yields_not_index (data : Py.bytes) (y : string) :
  In y (yields (iter_mth data)) -> y <> "index.mth".
Proof.
  intros Hin ->. apply yields_lower_hex in Hin. discriminate Hin.
Qed.

Lemma phases_provide
    (media_index : string) (destination : directory)
    (mth_bytes : Py.bytes) (s : state) :
  NoDup (listdir destination) ->
  phases requests_get sha1 delete generate redownload
         media_index mth_bytes (listed destination) = (Ok tt, s) ->
  forall h, In h (yields (iter_mth mth_bytes)) ->
    (exists body,
       requests_get (String.append media_index h) = Some body
       /\ lookup h (fs s) = Some (File body))
    \/ (redownload = false
        /\ In h (listdir destination)
        /\ lookup h (fs s) = lookup h destination).
Proof.
  intros Hnodup.
  set (ys := yields (iter_mth mth_bytes)).
  set (good := fun (h : string) (s : state) =>
    (exists body,
       requests_get (String.append media_index h) = Some body
       /\ lookup h (fs s) = Some (File body))
    \/ (redownload = false
        /\ In h (listdir destination)
        /\ lookup h (fs s) = lookup h destination)).
  set (I := fun (pre : list string) (s : state) =>
    NoDup (list_files s)
    /\ (forall n, In n (list_files s) ->
          In n (listdir destination)
          /\ lookup n (fs s) = lookup n destination)
    /\ (forall h, In h pre -> ~ In h (list_files s) /\ good h s)).
  set (J := fun s : state => forall h, In h ys -> good h s).
  assert (Hother : forall h n content s0,
            h <> n -> good h s0 -> good h (set_fs (write_file n content) s0)).
  { intros h n content s0 Hne [(body & Hget & Hl)|(Hre & Hin & Hl)];
      [left; exists body|right; repeat split; auto];
      cbn; rewrite lookup_write_other; auto. }
  assert (Hphases :
    triple (I []) (phases requests_get sha1 delete generate redownload
                          media_index mth_bytes)
           (fun _ => J) (fun _ => True)).
  { apply triple_phases_gen with (I := I ys) (J := J); auto.
    - apply triple_for_each_prefix. intros p x q Hl.
      apply triple_process_gen; auto.
      + (* found and kept *)
        intros s0 (Hnd & Hlf & Hpre) Hin Hre. unfold I. cbn.
        split; [now apply remove_NoDup|]. split.
        * intros n Hn. apply Hlf. eapply remove_incl, Hn.
        * intros h Hh. apply in_app_or in Hh.
          destruct Hh as [Hh|[<-|[]]].
          -- destruct (Hpre h Hh) as [Hout Hgood].
             split; [|exact Hgood].
             intros Hn. apply Hout. eapply remove_incl, Hn.
          -- split; [now apply remove_gone|].
             right. destruct (Hlf x Hin) as [Hx Heq]. auto.
      + (* fetched *)
        intros s0 body (Hnd & Hlf & Hpre) Hwhy Hget Hfile.
        destruct (entered_fields x s0) as (Hfs & _ & _ & _ & _ & _ & Hfiles).
        assert (Hgone : ~ In x (list_files (entered x s0))).
        { rewrite Hfiles.
          destruct (Py.contains x (list_files s0)) eqn:Hc.
          - now apply remove_gone.
          - now apply contains_not_In. }
        assert (Hsub : forall n, In n (list_files (entered x s0)) ->
                                 In n (list_files s0)).
        { intros n. rewrite Hfiles.
          destruct (Py.contains x (list_files s0)); [apply remove_incl|auto]. }
        unfold I. cbn [list_files fs set_fs]. split.
        { rewrite Hfiles.
          destruct (Py.contains x (list_files s0));
            [now apply remove_NoDup|exact Hnd]. }
        split.
        * intros n Hn.
          assert (Hne : n <> x) by (intros ->; exact (Hgone Hn)).
          destruct (Hlf n (Hsub n Hn)) as [Hin Heq].
          split; [exact Hin|].
          rewrite Hfs, lookup_write_other; auto.
        * intros h Hh.
          assert (Hfetched : good x (set_fs (write_file x body)
                                            (entered x s0))).
          { left. exists body. split; [exact Hget|].
            cbn. apply lookup_write_file. }
          destruct (String.eqb_spec h x) as [->|Hne].
          { split; [exact Hgone|exact Hfetched]. }
          apply in_app_or in Hh.
          destruct Hh as [Hh|[Heq|[]]]; [|congruence].
          destruct (Hpre h Hh) as [Hout Hgood].
          split; [intros Hn; exact (Hout (Hsub h Hn))|].
          apply Hother; [exact Hne|].
          destruct Hgood as [(b & Hb & Hlb)|(Hre & Hin & Hlb)];
            [left; exists b|right; repeat split; auto];
            now rewrite Hfs.
    - intros _ s0 (_ & _ & Hpre) h Hh. now apply Hpre.
    - intros _ s0 (_ & _ & Hpre).
      apply triple_conseq
        with (P' := J) (Q' := fun _ => J) (E' := fun _ => True); auto.
      + apply triple_for_each. intros n Hn.
        apply triple_delete_gen; auto.
        intros s1 content HJ _ _ h Hh.
        assert (Hne : h <> n).
        { intros ->. destruct (Hpre n Hh) as [Hout _]. exact (Hout Hn). }
        destruct (HJ h Hh) as [(b & Hb & Hl)|(Hre & Hin & Hl)];
          [left; exists b|right; repeat split; auto];
          cbn; rewrite lookup_unlink_other; auto.
      + intros s1 <- h Hh. now apply Hpre.
    - apply triple_finish_gen; auto.
      intros s0 HJ _ h Hh. apply Hother; [|now apply HJ].
      now apply (yields_not_index mth_bytes). }
  intros Hrun h Hh.
  refine (triple_ok _ _ (fun _ => J) (fun _ => True) _ _ tt
            Hphases _ Hrun h Hh).
  unfold I, listed. cbn. split; [exact Hnodup|]. split; [auto|].
  intros h' [].
Qed.

(** What a successful run guarantees about the remote hashes: each
    string yielded by the decoder names an entry of the destination
    afterwards.  Either the run fetched it, and it is a file holding
    the body the server answered for it; or redownload is off, it was a
    local entry, and that entry is as it was. *)
Theorem run_provides_remote_hashes
    (media_index_arg media_index : string) (destination : directory)
    (mth_bytes : Py.bytes) (s : state) :
  with_slash media_index_arg = Ok media_index ->
  requests_post (String.append media_index "index.mth") = Some mth_bytes ->
  NoDup (listdir destination) ->
  run requests_post requests_get sha1 delete generate redownload
      media_index_arg destination = (Ok tt, s) ->
  forall h, In h (yields (iter_mth mth_bytes)) ->
    (exists body,
       requests_get (String.append media_index h) = Some body
       /\ lookup h (fs s) = Some (File body))
    \/ (redownload = false
        /\ In h (listdir destination)
        /\ lookup h (fs s) = lookup h destination).
Proof.
  intros Hslash Hpost Hnodup. rewrite run_unfold, Hslash, Hpost.
  intros Hrun h Hh.
  exact (phases_provide media_index destination mth_bytes s Hnodup Hrun h Hh).
Qed.

Lemma phases_leave_only
    (media_index : string) (destination : directory)
    (mth_bytes : Py.bytes) (s : state) :
  delete = true ->
  NoDup (listdir destination) ->
  phases requests_get sha1 delete generate redownload
         media_index mth_bytes (listed destination) = (Ok tt, s) ->
  forall name,
    In name (listdir (fs s)) ->
    not_hash_name name = false ->
    In name (yields (iter_mth mth_bytes)).
Proof.
  intros Hdelete Hnodup.
  set (ys := yields (iter_mth mth_bytes)).
  set (I := fun s : state =>
    NoDup (listdir (fs s))
    /\ (forall n, In n (listdir (fs s)) ->
          In n (list_files s) \/ In n ys)).
  set (D := fun (L pre : list string) (s : state) =>
    NoDup (listdir (fs s))
    /\ (forall n, In n (listdir (fs s)) -> In n L \/ In n ys)
    /\ (forall n, In n pre -> not_hash_name n = false ->
          ~ In n (listdir (fs s)))).
  set (J := fun s : state =>
    forall n, In n (listdir (fs s)) -> not_hash_name n = false -> In n ys).
  assert (Hphases :
    triple I (phases requests_get sha1 delete generate redownload
                     media_index mth_bytes)
           (fun _ => J) (fun _ => True)).
  { apply triple_phases_gen with (I := I) (J := J); auto.
    - apply triple_for_each. intros x Hx.
      apply triple_process_gen; auto.
      + intros s0 [Hnd Hcov] Hin _. split; [exact Hnd|].
        intros n Hn. cbn in Hn |- *.
        destruct (Hcov n Hn) as [Hl|Hy]; [|now right].
        destruct (String.eqb_spec n x) as [->|Hne]; [now right|].
        left. now apply remove_other.
      + intros s0 body [Hnd Hcov] _ _ _.
        destruct (entered_fields x s0) as (Hfs & _ & _ & _ & _ & _ & Hfiles).
        split; cbn [fs set_fs]; rewrite Hfs.
        * now apply write_file_NoDup.
        * intros n Hn. apply listdir_write_file in Hn.
          destruct (String.eqb_spec n x) as [->|Hne]; [now right|].
          destruct Hn as [Heq|Hn]; [contradiction|].
          destruct (Hcov n Hn) as [Hl|Hy]; [|now right].
          left. cbn [list_files set_fs]. rewrite Hfiles.
          destruct (Py.contains x (list_files s0));
            [now apply remove_other|exact Hl].
    - congruence.
    - intros _ s0 [Hnd Hcov].
      apply triple_conseq
        with (P' := D (list_files s0) [])
             (Q' := fun _ => D (list_files s0) (list_files s0))
             (E' := fun _ => True); auto.
      + apply triple_for_each_prefix. intros p n q Hl.
        apply triple_delete_gen; auto.
        * intros s1 (Hnd1 & Hcov1 & Hgone1) Hname.
          split; [exact Hnd1|]. split; [exact Hcov1|].
          intros m Hm Hmname. apply in_app_or in Hm.
          destruct Hm as [Hm|[<-|[]]]; [auto|congruence].
        * intros s1 content (Hnd1 & Hcov1 & Hgone1) Hname Hfile.
          cbn [fs set_fs incr_delete].
          split; [now apply unlink_NoDup|]. split.
          -- intros m Hm. apply Hcov1. eapply listdir_unlink, Hm.
          -- intros m Hm Hmname Hin. apply in_app_or in Hm.
             destruct Hm as [Hm|[<-|[]]].
             ++ apply (Hgone1 m Hm Hmname). eapply listdir_unlink, Hin.
             ++ exact (unlink_gone _ _ Hnd1 Hin).
      + intros s1 <-. split; [exact Hnd|]. split; [exact Hcov|].
        intros n [].
      + intros _ s1 (Hnd1 & Hcov1 & Hgone1) n Hn Hname.
        destruct (Hcov1 n Hn) as [Hl|Hy]; [|exact Hy].
        exfalso. exact (Hgone1 n Hl Hname Hn).
    - apply triple_finish_gen; auto.
      intros s0 HJ _ n Hn Hname. cbn in Hn.
      apply listdir_write_file in Hn.
      destruct Hn as [->|Hn]; [discriminate Hname|now apply HJ]. }
  intros Hrun name Hname Hhash.
  refine (triple_ok _ _ (fun _ => J) (fun _ => True) _ _ tt
            Hphases _ Hrun name Hname Hhash).
  split; [exact Hnodup|]. intros n Hn. now left.
Qed.

(** What a successful run with [--delete] guarantees about the rest of
    the destination: every entry left whose name passes the name filter
    (40 characters, at least one hexadecimal digit) is named by a string
    of the remote index.  Together with the previous theorem: after the
    run, the hash-named entries are those of the index. *)
Theorem run_leaves_only_remote_hashes
    (media_index_arg media_index : string) (destination : directory)
    (mth_bytes : Py.bytes) (s : state) :
  delete = true ->
  with_slash media_index_arg = Ok media_index ->
  requests_post (String.append media_index "index.mth") = Some mth_bytes ->
  NoDup (listdir destination) ->
  run requests_post requests_get sha1 delete generate redownload
      media_index_arg destination = (Ok tt, s) ->
  forall name,
    In name (listdir (fs s)) ->
    not_hash_name name = false ->
    In name (yields (iter_mth mth_bytes)).
Proof.
  intros Hdelete Hslash Hpost Hnodup. rewrite run_unfold, Hslash, Hpost.
  intros Hrun name Hname Hhash.
  exact (phases_leave_only media_index destination mth_bytes s
           Hdelete Hnodup Hrun name Hname Hhash).
Qed.

(** On a destination that is already in step with the index the three
    phases do nothing until [index.mth] is written. *)
Lemma phases_on_synced
    (media_index : string) (destination : directory)
    (mth_bytes : Py.bytes) :
  redownload = false ->
  NoDup (listdir destination) ->
  NoDup (yields (iter_mth mth_bytes)) ->
  (forall h, In h (yields (iter_mth mth_bytes)) ->
     In h (listdir destination)) ->
  (forall n, In n (listdir destination) -> not_hash_name n = false ->
     In n (yields (iter_mth mth_bytes))) ->
  match phases requests_get sha1 delete generate redownload
               media_index mth_bytes (listed destination) with
  | (Ok _, s) =>
      idle s
      /\ fs s = write_file "index.mth"
                  (index_content sha1 generate mth_bytes
                     (write_file "index.mth" [] destination))
                  destination
  | (Raise _, s) =>
      idle s
      /\ fs s = destination
      /\ (lookup "index.mth" destination = Some Dir
          \/ raised (iter_mth mth_bytes) <> None)
  end.
Proof.
  intros Hre Hnodup Hys Hlocal Hlisted.
  set (ys := yields (iter_mth mth_bytes)) in *.
  set (I := fun (pre : list string) (s : state) =>
    fs s = destination /\ idle s
    /\ NoDup (list_files s)
    /\ (forall n, In n (list_files s) <->
                  In n (listdir destination) /\ ~ In n pre)).
  set (J := fun s : state => fs s = destination /\ idle s).
  set (Q := fun s : state =>
    idle s
    /\ fs s = write_file "index.mth"
                (index_content sha1 generate mth_bytes
                   (write_file "index.mth" [] destination))
                destination).
  set (E := fun s : state =>
    idle s /\ fs s = destination
    /\ (lookup "index.mth" destination = Some Dir
        \/ raised (iter_mth mth_bytes) <> None)).
  assert (Hnever : forall x s0,
            (In x (list_files s0) -> redownload = true) ->
            ~ In x (list_files s0)).
  { intros x s0 Hwhy Hin. specialize (Hwhy Hin). congruence. }
  assert (Hphases :
    triple (I []) (phases requests_get sha1 delete generate redownload
                          media_index mth_bytes)
           (fun _ => Q) E).
  { apply triple_phases_gen with (I := I ys) (J := J).
    - apply triple_for_each_prefix. intros p x q Hl.
      assert (Hfresh : ~ In x p).
      { unfold ys in *. rewrite Hl in Hys.
        apply NoDup_remove_2 in Hys.
        intros Hin. apply Hys, in_or_app. now left. }
      assert (Hx : In x (listdir destination)).
      { apply Hlocal. rewrite Hl. apply in_or_app. right. now left. }
      assert (Hthere : forall s0, I p s0 -> In x (list_files s0)).
      { intros s0 (_ & _ & _ & Hiff). apply Hiff. now split. }
      apply triple_process_gen.
      + intros s0 (Hfs & Hidle & Hnd & Hiff) _ _.
        split; [exact Hfs|]. split; [exact Hidle|].
        cbn [list_files set_list_files incr_found].
        split; [now apply remove_NoDup|].
        intros n. rewrite remove_In_iff, Hiff by assumption.
        split.
        * intros [[Hn Hp] Hne]. split; [exact Hn|].
          intros Hin. apply in_app_or in Hin.
          destruct Hin as [Hin|[Heq|[]]]; [auto|congruence].
        * intros [Hn Hp]. split; [split; [exact Hn|]|].
          -- intros Hin. apply Hp, in_or_app. now left.
          -- intros ->. apply Hp, in_or_app. right. now left.
      + intros s0 body Hs0 Hwhy _ _.
        exfalso. exact (Hnever x s0 Hwhy (Hthere s0 Hs0)).
      + intros s0 Hs0 Hwhy _.
        exfalso. exact (Hnever x s0 Hwhy (Hthere s0 Hs0)).
      + intros s0 Hs0 Hwhy _.
        exfalso. exact (Hnever x s0 Hwhy (Hthere s0 Hs0)).
    - intros s0 (Hfs & Hidle & _) Hraised. unfold E. auto.
    - intros _ s0 (Hfs & Hidle & _). now split.
    - intros _ s0 (Hfs & Hidle & Hnd & Hiff).
      apply triple_conseq
        with (P' := J) (Q' := fun _ => J) (E' := E);
        [|intros s1 <-; now split|auto|auto].
      apply triple_for_each. intros n Hn.
      assert (Hforeign : not_hash_name n = true).
      { apply Hiff in Hn. destruct Hn as [Hn Hout].
        destruct (not_hash_name n) eqn:Hname; [reflexivity|].
        exfalso. exact (Hout (Hlisted n Hn Hname)). }
      apply triple_delete_gen; [auto|intros; congruence|intros; congruence].
    - apply triple_finish_gen.
      + intros s0 [Hfs Hidle] Hdir. unfold E. rewrite Hfs in Hdir. auto.
      + intros s0 [Hfs Hidle] _. split; [exact Hidle|].
        cbn. now rewrite Hfs. }
  apply Hphases.
  unfold I, idle, listed. cbn. repeat split; auto; tauto.
Qed.

(** A run on a destination that is already in step with the index
    changes nothing but [index.mth].  If redownload is off, the index
    yields no string twice, every string it yields is a local name and
    every local name that passes the name filter is yielded, then
    nothing is fetched, nothing is deleted and every entry other than
    [index.mth] is as it was, whatever the other options are and however
    the run ends. *)
Theorem run_on_synced_destination
    (media_index_arg media_index : string) (destination : directory)
    (mth_bytes : Py.bytes) :
  redownload = false ->
  with_slash media_index_arg = Ok media_index ->
  requests_post (String.append media_index "index.mth") = Some mth_bytes ->
  NoDup (listdir destination) ->
  NoDup (yields (iter_mth mth_bytes)) ->
  (forall h, In h (yields (iter_mth mth_bytes)) ->
     In h (listdir destination)) ->
  (forall n, In n (listdir destination) -> not_hash_name n = false ->
     In n (yields (iter_mth mth_bytes))) ->
  forall s : state,
    s = snd (run requests_post requests_get sha1 delete generate redownload
                 media_index_arg destination) ->
    to_download s = [] /\ download_count s = 0
    /\ to_delete s = [] /\ delete_count s = 0
    /\ forall name, name <> "index.mth" ->
         lookup name (fs s) = lookup name destination.
Proof.
  intros Hre Hslash Hpost Hnodup Hys Hlocal Hlisted s ->.
  rewrite run_unfold, Hslash, Hpost.
  pose proof (phases_on_synced media_index destination mth_bytes
                Hre Hnodup Hys Hlocal Hlisted) as Hsynced.
  destruct (phases requests_get sha1 delete generate redownload
                   media_index mth_bytes (listed destination))
    as [[[]|e] s]; cbn [snd].
  - destruct Hsynced as [(H1 & H2 & H3 & H4) Hfs].
    repeat split; auto.
    intros name Hname. rewrite Hfs. now apply lookup_write_other.
  - destruct Hsynced as [(H1 & H2 & H3 & H4) [Hfs _]].
    repeat split; auto.
    intros name Hname. now rewrite Hfs.
Qed.

Lemma phases_index_written
    (media_index : string) (mth_bytes : Py.bytes) (s0 s : state) :
  phases requests_get sha1 delete generate redownload
         media_index mth_bytes s0 = (Ok tt, s) ->
  raised (iter_mth mth_bytes) = None
  /\ exists d,
       fs s = write_file "index.mth"
                (index_content sha1 generate mth_bytes
                   (write_file "index.mth" [] d))
                d.
Proof.
  intros Hrun. split.
  - unfold phases, for_gen in Hrun.
    apply bind_ok_inv in Hrun. destruct Hrun as (u & s1 & Hloop & Hrest).
    apply bind_ok_inv in Hloop. destruct Hloop as (u' & s1' & Hbody & Hend).
    destruct (raised (iter_mth mth_bytes)); [discriminate Hend|reflexivity].
  - apply phases_ok_inv in Hrun. destruct Hrun as [s2 Hrun].
    refine (triple_ok (eq s2) _
              (fun _ s' => exists d,
                 fs s' = write_file "index.mth"
                           (index_content sha1 generate mth_bytes
                              (write_file "index.mth" [] d)) d)
              (fun _ => True) s2 s tt _ eq_refl Hrun).
    apply triple_finish_gen; [auto|].
    intros s' <- _. now exists (fs s2).
Qed.

(** Running twice is running once: after a successful run with
    [--delete] and without redownload, on an index that yields no string
    twice, a second run against the same server succeeds, fetches
    nothing, deletes nothing and leaves the directory, [index.mth]
    included, exactly as the first run left it. *)
Theorem run_twice
    (media_index_arg media_index : string) (destination : directory)
    (mth_bytes : Py.bytes) (s1 : state) :
  delete = true ->
  redownload = false ->
  with_slash media_index_arg = Ok media_index ->
  requests_post (String.append media_index "index.mth") = Some mth_bytes ->
  NoDup (listdir destination) ->
  NoDup (yields (iter_mth mth_bytes)) ->
  run requests_post requests_get sha1 delete generate redownload
      media_index_arg destination = (Ok tt, s1) ->
  exists s2,
    run requests_post requests_get sha1 delete generate redownload
        media_index_arg (fs s1) = (Ok tt, s2)
    /\ fs s2 = fs s1
    /\ to_download s2 = [] /\ to_delete s2 = [].
Proof.
  intros Hdelete Hre Hslash Hpost Hnodup Hys Hrun1.
  assert (Hnodup1 : NoDup (listdir (fs s1))).
  { change s1 with (snd (Ok tt, s1)). rewrite <- Hrun1.
    apply (run_invariant (fun s => NoDup (listdir (fs s)))); auto.
    - intros h s Hs _. now destruct (entered_fields h s) as (-> & _).
    - intros h s content Hs _. cbn. now apply write_file_NoDup.
    - intros n s _ Hs _ _ _. cbn. now apply unlink_NoDup.
    - intros s content Hs. cbn. now apply write_file_NoDup. }
  rewrite run_unfold, Hslash, Hpost in Hrun1.
  destruct (phases_index_written _ _ _ _ Hrun1) as [Hraised [d Hfs1]].
  assert (Hlocal : forall h, In h (yields (iter_mth mth_bytes)) ->
                             In h (listdir (fs s1))).
  { intros h Hh. apply lookup_listdir.
    destruct (phases_provide media_index destination mth_bytes s1
                Hnodup Hrun1 h Hh)
      as [(body & _ & Hl)|(_ & Hin & Hl)]; rewrite Hl; [discriminate|].
    now apply lookup_listdir. }
  pose proof (phases_leave_only media_index destination mth_bytes s1
                Hdelete Hnodup Hrun1) as Hlisted.
  pose proof (phases_on_synced media_index (fs s1) mth_bytes
                Hre Hnodup1 Hys Hlocal Hlisted) as Hsynced.
  rewrite run_unfold, Hslash, Hpost.
  destruct (phases requests_get sha1 delete generate redownload
                   media_index mth_bytes (listed (fs s1)))
    as [[[]|e] s2].
  - exists s2. destruct Hsynced as [(H1 & _ & H3 & _) Hfs2].
    split; [reflexivity|]. split; [|auto].
    rewrite Hfs2. rewrite Hfs1 at 1 3.
    rewrite write_file_twice.
    rewrite <- Hfs1 at 1.
    rewrite Hfs1 at 1. rewrite write_file_twice. now rewrite <- Hfs1.
  - exfalso. destruct Hsynced as (_ & _ & [Hdir|Hbad]).
    + rewrite Hfs1, lookup_write_file in Hdir. discriminate Hdir.
    + contradiction.
Qed.

Lemma bind_ok {A B : Type} (c : M A) (k : A -> M B) (s s' : state) (a : A) :
  c s = (Ok a, s') -> bind c k s = k a s'.
Proof. intros Hc. unfold bind. now rewrite Hc. Qed.

Lemma bind_raise {A B : Type} (c : M A) (k : A -> M B) (s s' : state)
    (e : exn) :
  c s = (Raise e, s') -> bind c k s = (Raise e, s').
Proof. intros Hc. unfold bind. now rewrite Hc. Qed.

Lemma process_fetch_fails (media_index h : string) (s : state) :
  (In h (list_files s) -> redownload = true) ->
  lookup h (fs s) <> Some Dir ->
  requests_get (String.append media_index h) = None ->
  process_hash requests_get redownload media_index h s
  = (Raise ConnectionError, set_fs (write_file h []) (entered h s)).
Proof.
  intros Hwhy Hfile Hget.
  assert (Hdl : forall s0, fs s0 = fs s ->
    download requests_get media_index h s0
    = (Raise ConnectionError, set_fs (write_file h []) s0)).
  { intros s0 Hfs.
    unfold download, open_wb, bind, get_state, lift, http, modify, raise.
    rewrite Hfs, Hget.
    destruct (lookup h (fs s)) as [[c|]|];
      [reflexivity|now destruct Hfile|reflexivity]. }
  unfold process_hash, entered, bind, modify, get_state, ret.
  cbn [list_files incr_found].
  destruct (Py.contains h (list_files s)) eqn:Hc.
  - apply contains_In in Hc. rewrite (Hwhy Hc). cbn [negb].
    now rewrite Hdl.
  - now rewrite Hdl.
Qed.

Lemma loop_deletes_nothing (media_index : string) (l : list string)
    (s s' : state) (r : result unit) :
  for_each (process_hash requests_get redownload media_index) l s = (r, s') ->
  to_delete s' = to_delete s.
Proof.
  intros Hrun.
  assert (Hloop :
    triple (fun s0 => to_delete s0 = to_delete s)
           (for_each (process_hash requests_get redownload media_index) l)
           (fun _ s0 => to_delete s0 = to_delete s)
           (fun s0 => to_delete s0 = to_delete s)).
  { apply triple_for_each. intros h _.
    apply triple_process_gen.
    - intros s0 Hs _ _. exact Hs.
    - intros s0 body Hs _ _ _.
      destruct (entered_fields h s0) as (_ & _ & Hd & _).
      unfold set_fs. cbn [to_delete]. congruence.
    - intros s0 Hs _ _.
      destruct (entered_fields h s0) as (_ & _ & Hd & _). congruence.
    - intros s0 Hs _ _.
      destruct (entered_fields h s0) as (_ & _ & Hd & _).
      unfold set_fs. cbn [to_delete]. congruence. }
  specialize (Hloop s eq_refl). rewrite Hrun in Hloop.
  now destruct r.
Qed.

(** A fetch that fails costs the entry its content.  The file is opened
    for writing before the request is made: when the request for a hash
    fails, the run stops with the request's error, the file of that name
    is left empty, whatever it held before, every other entry is as it
    was at that point, nothing has been deleted and [index.mth] has not
    been written.  [pre] are the hashes processed before, [s1] the state
    they left. *)
Theorem failed_fetch_leaves_empty_file
    (media_index_arg media_index : string) (destination : directory)
    (mth_bytes : Py.bytes) (pre rest : list string) (h : string)
    (s1 : state) :
  with_slash media_index_arg = Ok media_index ->
  requests_post (String.append media_index "index.mth") = Some mth_bytes ->
  yields (iter_mth mth_bytes) = pre ++ h :: rest ->
  for_each (process_hash requests_get redownload media_index) pre
           (listed destination) = (Ok tt, s1) ->
  (In h (list_files s1) -> redownload = true) ->
  lookup h (fs s1) <> Some Dir ->
  requests_get (String.append media_index h) = None ->
  exists s,
    run requests_post requests_get sha1 delete generate redownload
        media_index_arg destination = (Raise ConnectionError, s)
    /\ lookup h (fs s) = Some (File [])
    /\ (forall name, name <> h -> lookup name (fs s) = lookup name (fs s1))
    /\ to_delete s = [].
Proof.
  intros Hslash Hpost Hys Hpre Hwhy Hfile Hget.
  exists (set_fs (write_file h []) (entered h s1)).
  destruct (entered_fields h s1) as (Hfs & _ & Hdel & _).
  split; [|split; [|split]].
  - rewrite run_unfold, Hslash, Hpost. unfold phases, for_gen.
    apply bind_raise, bind_raise.
    rewrite Hys, for_each_app, (bind_ok _ _ _ _ _ Hpre).
    cbn [for_each]. apply bind_raise.
    now apply process_fetch_fails.
  - cbn [fs set_fs]. apply lookup_write_file.
  - intros name Hname. cbn [fs set_fs].
    rewrite lookup_write_other by exact Hname. now rewrite Hfs.
  - unfold set_fs. cbn [to_delete]. rewrite Hdel.
    now rewrite (loop_deletes_nothing _ _ _ _ _ Hpre).
Qed.

End RunProofs.

(** * Concrete runs *)

Import Sample.

Lemma sample_NoDup : NoDup (listdir destination).
Proof.
  repeat constructor; cbn; intuition discriminate.
Defined.

Lemma digest_length (content : Py.bytes) : List.length (digest content) = 20.
Proof.
  unfold digest. rewrite length_firstn, length_app, repeat_length. lia.
Defined.

(** The reconciliation examples of the specification: full overlap. *)
Example run_full_overlap :
  let s := snd (run (serve (encode [hash_a; hash_b])) (serve [x63]) digest
                    true false false "http://media"
                    [(name_a, File [x01]); (name_b, File [x03])]) in
  to_download s = [] /\ found_count s = 2 /\ download_count s = 0
  /\ to_delete s = [].
Proof. vm_compute. auto. Qed.

(** No overlap, with deletion. *)
Example run_no_overlap :
  let s := snd (run (serve (encode [hash_a])) (serve [x63]) digest
                    true false false "http://media"
                    [(name_b, File [x01]); (name_c, File [x03])]) in
  to_download s = [name_a] /\ to_delete s = [name_b; name_c]
  /\ delete_count s = 2.
Proof. vm_compute. auto. Qed.

(** A whole run on an index that lists the same hash twice. *)
Example run_duplicate_hash :
  let s := snd (run (serve (encode [hash_a; hash_a])) (serve [x63]) digest
                    true false false "http://media" destination) in
  found_count s = 2 /\ download_count s = 1 /\ to_download s = [name_a]
  /\ to_delete s = [name_b].
Proof. vm_compute. auto. Qed.

(** An index with a bad header stops the run before anything is
    fetched, deleted or written. *)
Example run_bad_header :
  run (serve [x4d; x54]) (serve [x63]) digest true false false
      "http://media" destination
  = (Raise (RuntimeError "Invalid index.mth"), listed destination).
Proof. reflexivity. Qed.

(** C1, the code at the failing input: the header followed by one
    complete group and one more byte ([N = 1], [k = 1]).  The decoder
    raises nothing and yields two strings, not one; the second, [ab], is
    the string of the lone byte.  It is no hash: the docstring of
    [iter_mth] promises string hashes and an error on an invalid index,
    and the name filter of [main] does not take [ab] for a hash name. *)
Lemma iter_mth_yields_trailing_fragment :
  List.length (hash_a ++ [xab]) = 20 * 1 + 1
  /\ iter_mth (MAGIC ++ hash_a ++ [xab]) = ([name_a; "ab"], None)
  /\ List.length (yields (iter_mth (MAGIC ++ hash_a ++ [xab]))) <> 1
  /\ not_hash_name "ab" = true.
Proof.
  split; [reflexivity|]. split; [reflexivity|].
  split; [vm_compute; discriminate | reflexivity].
Qed.

Lemma iter_mth_trailing_fragment_witness :
  iter_mth (MAGIC ++ hash_a ++ [xab; xcd]) = ([name_a; "abcd"], None)
  /\ List.length (yields (iter_mth (MAGIC ++ hash_a ++ [xab; xcd]))) = 2.
Proof.
  destruct (iter_mth_trailing_fragment (hash_a ++ [xab; xcd]) 1 2)
    as (Hyield & Hcount & _).
  - reflexivity.
  - lia.
  - split; [exact Hyield | exact Hcount].
Defined.

Lemma iter_mth_format_check_witness :
  iter_mth [x4d; x54; x48; x53; x00; x02; x0a]
  = ([], Some (RuntimeError "Invalid index.mth"))
  /\ iter_mth [] = ([], Some (RuntimeError "Invalid index.mth"))
  /\ raised (iter_mth (MAGIC ++ hash_a)) = None.
Proof.
  split; [|split].
  - apply (proj1 (iter_mth_format_check [x4d; x54; x48; x53; x00; x02; x0a])).
    discriminate.
  - apply (proj1 (proj2 (iter_mth_format_check []))). simpl. lia.
  - apply (proj2 (proj2 (iter_mth_format_check (MAGIC ++ hash_a)))).
    reflexivity.
Defined.

Lemma decode_encode_witness :
  iter_mth (encode [hash_a; hash_b]) = ([name_a; name_b], None).
Proof.
  apply (decode_encode [hash_a; hash_b]).
  repeat constructor.
Defined.

(** C4, the code at the failing input: the remote index is empty,
    deletion is on and the destination holds a directory with a hash
    name.  The deletion loop has no file-type test (the regeneration
    loop has one): the directory is counted, handed to [os.remove], and
    the run ends with the error of removing a directory. *)
Lemma delete_reaches_directory :
  lookup name_a hash_named_directory = Some Dir
  /\ not_hash_name name_a = false
  /\ hashed_files hash_named_directory = []
  /\ run (serve MAGIC) (serve [x63]) digest true false false
         "http://media/" hash_named_directory
     = (Raise IsADirectoryError,
        mkState hash_named_directory [name_a] 0 0 1 [] [name_a]).
Proof. repeat split. Qed.

(** C5, the code at the failing input: [ab] is a local file whose name
    is not 40 characters long; the remote index ends in the lone byte
    [0xab] and redownload is on.  The decoder yields [ab] for that byte,
    and the run, which ends normally, fetches [ab] and overwrites the
    foreign file. *)
Lemma foreign_file_fetched_through_fragment :
  not_hash_name "ab" = true
  /\ In "ab" (listdir short_name)
  /\ In "ab" (to_download
                (snd (run (serve (MAGIC ++ [xab])) (serve [x63]) digest
                          true false true "http://media" short_name)))
  /\ fst (run (serve (MAGIC ++ [xab])) (serve [x63]) digest
              true false true "http://media" short_name) = Ok tt
  /\ lookup "ab" short_name = Some (File [x07])
  /\ lookup "ab"
       (fs (snd (run (serve (MAGIC ++ [xab])) (serve [x63]) digest
                     true false true "http://media" short_name)))
     = Some (File [x63]).
Proof.
  split; [reflexivity|]. split; [now left|].
  split; [vm_compute; now left|].
  split; [reflexivity|]. split; reflexivity.
Qed.

Lemma foreign_names_preserved_witness :
  ~ In "notes.txt"
      (to_delete
         (snd (run (serve (encode [hash_a; hash_c])) (serve [x63]) digest
                   true false true "http://media" destination)))
  /\ ~ In "notes.txt"
       (to_download
          (snd (run (serve (encode [hash_a; hash_c])) (serve [x63]) digest
                    true false true "http://media" destination))).
Proof.
  destruct (foreign_names_preserved
              (serve (encode [hash_a; hash_c])) (serve [x63]) digest
              true false true "http://media" destination "notes.txt")
    with (s := snd (run (serve (encode [hash_a; hash_c])) (serve [x63])
                        digest true false true "http://media" destination))
    as [Hdelete Hdownload].
  - reflexivity.
  - simpl. auto.
  - reflexivity.
  - split; [exact Hdelete|].
    intros Hin. destruct (Hdownload Hin) as (_ & mi & mb & _ & Hpost & Hk & _).
    injection Hpost as <-. vm_compute in Hk. lia.
Defined.

Lemma download_delete_disjoint_witness :
  In name_c
     (to_download
        (snd (run (serve (encode [hash_a; hash_c])) (serve [x63]) digest
                  true false false "http://media" destination)))
  /\ ~ In name_c
       (to_delete
          (snd (run (serve (encode [hash_a; hash_c])) (serve [x63]) digest
                    true false false "http://media" destination))).
Proof.
  assert (Hin : In name_c
     (to_download
        (snd (run (serve (encode [hash_a; hash_c])) (serve [x63]) digest
                  true false false "http://media" destination))))
    by (vm_compute; now left).
  split; [exact Hin|].
  exact (download_delete_disjoint
           (serve (encode [hash_a; hash_c])) (serve [x63]) digest
           true false false "http://media" destination
           sample_NoDup name_c Hin).
Defined.

Lemma duplicate_hash_fetched_at_second_occurrence_witness :
  let s0 := listed destination in
  let s1 := snd (process_hash (serve [x63]) false "http://media/" name_b s0) in
  let s2 := snd (process_hash (serve [x63]) false "http://media/" name_a s1) in
  let s3 := snd (process_hash (serve [x63]) false "http://media/" name_c s2) in
  let s4 := snd (process_hash (serve [x63]) false "http://media/" name_a s3) in
  (download_count s2 = download_count s1 /\ ~ In name_a (list_files s2))
  /\ download_count s4 = S (download_count s3)
  /\ found_count s4 = 4.
Proof.
  intros s0 s1 s2 s3 s4.
  destruct (duplicate_hash_fetched_at_second_occurrence
              (serve [x63]) false "http://media/" name_a
              [name_b] [name_c] s0 s1 s3) with (s2 := s2) (s4 := s4)
    as ((_ & _ & _ & Hgone & _ & Hsame & _) & (_ & Hmore & _) & Hfound).
  - reflexivity.
  - exact sample_NoDup.
  - simpl. auto.
  - simpl. intuition discriminate.
  - simpl. intuition discriminate.
  - reflexivity.
  - reflexivity.
  - reflexivity.
  - reflexivity.
  - split; [split; [exact Hsame | exact Hgone]|].
    split; [exact Hmore | exact Hfound].
Defined.

Lemma redownload_forces_download_witness :
  let s := snd (run (serve (MAGIC ++ hash_a)) (serve [x63]) digest
                    true false true "http://media" destination) in
  to_download s = [name_a] /\ download_count s = 1 /\ found_count s = 1
  /\ ~ In name_a (list_files s) /\ ~ In name_a (to_delete s).
Proof.
  intros s.
  apply (redownload_forces_download
           (serve (MAGIC ++ hash_a)) (serve [x63]) digest
           true false true "http://media" "http://media/" destination hash_a).
  - reflexivity.
  - reflexivity.
  - reflexivity.
  - simpl. lia.
  - exact sample_NoDup.
  - simpl. auto.
  - reflexivity.
Defined.

(** The remote index of this run ends in a lone byte: what is written
    is what was fetched, not the encoding of what was decoded. *)
Lemma remote_index_verbatim_witness :
  lookup "index.mth"
    (fs (snd (run (serve (MAGIC ++ hash_a ++ [xab])) (serve [x63]) digest
                  true false false "http://media" destination)))
  = Some (File (MAGIC ++ hash_a ++ [xab])).
Proof.
  apply (remote_index_verbatim
           (serve (MAGIC ++ hash_a ++ [xab])) (serve [x63]) digest
           true false false "http://media" "http://media/" destination).
  - reflexivity.
  - reflexivity.
  - reflexivity.
  - vm_compute. reflexivity.
Defined.

Lemma generated_index_well_formed_witness :
  exists index : Py.bytes,
    lookup "index.mth"
      (fs (snd (run (serve (encode [hash_a; hash_c])) (serve [x63]) digest
                    true true false "http://media" destination)))
    = Some (File index)
    /\ firstn 6 index = MAGIC
    /\ List.length index = 6 + 20 * 2
    /\ raised (iter_mth index) = None.
Proof.
  destruct (generated_index_well_formed
              (serve (encode [hash_a; hash_c])) (serve [x63]) digest
              true true false "http://media" destination
              (snd (run (serve (encode [hash_a; hash_c])) (serve [x63])
                        digest true true false "http://media" destination)))
    as (index & Hlookup & _ & Hmagic & Hlen & Hdecode & _).
  - exact digest_length.
  - reflexivity.
  - vm_compute. reflexivity.
  - exists index. split; [exact Hlookup|]. split; [exact Hmagic|].
    split; [exact Hlen|]. rewrite Hdecode. reflexivity.
Defined.

(** * Concrete runs for the further properties *)

Import Scenario.

Lemma iter_mth_count_witness :
  List.length (yields (iter_mth (MAGIC ++ hash_a ++ [xab]))) = 2
  /\ String.length
       (nth 0 (yields (iter_mth (MAGIC ++ hash_a ++ [xab]))) EmptyString)
     = 40.
Proof.
  destruct (iter_mth_count (MAGIC ++ hash_a ++ [xab])) as [Hcount Hfull].
  - reflexivity.
  - split; [exact Hcount|]. apply Hfull. vm_compute. lia.
Defined.

Lemma iter_mth_injective_witness :
  MAGIC ++ hash_a ++ [xab]
  = [x4d; x54; x48; x53; x00; x01] ++ repeat x0a 20 ++ [xab].
Proof.
  apply iter_mth_injective; reflexivity.
Defined.

Lemma run_fails_early_witness :
  fst (run (serve MAGIC) (serve [x63]) digest true false false
           "" destination) = Raise IndexError
  /\ fst (run (fun _ => None) (serve [x63]) digest true false false
              "http://media" destination) = Raise ConnectionError
  /\ run (serve [x4d; x54; x48; x53; x00; x02]) (serve [x63]) digest
         true false false "http://media" destination
     = (Raise (RuntimeError "Invalid index.mth"),
        mkState destination (listdir destination) 0 0 0 [] []).
Proof.
  destruct (run_fails_early (serve MAGIC) (serve [x63]) digest
              true false false "" destination) as (Hempty & _ & _).
  destruct (run_fails_early (fun _ => None) (serve [x63]) digest
              true false false "http://media" destination)
    as (_ & Hpost & _).
  destruct (run_fails_early (serve [x4d; x54; x48; x53; x00; x02])
              (serve [x63]) digest true false false "http://media"
              destination) as (_ & _ & Hheader).
  split; [|split].
  - now rewrite Hempty.
  - now rewrite (Hpost "http://media/").
  - apply (Hheader "http://media/" [x4d; x54; x48; x53; x00; x02]);
      [reflexivity|reflexivity|discriminate].
Defined.

Lemma with_slash_normalises_witness :
  exists url,
    with_slash "http://media" = Ok url
    /\ Py.last_char url = Some "/"%char
    /\ with_slash url = Ok url.
Proof.
  destruct (with_slash_normalises "http://media") as (url & H1 & H2 & _ & _ & H5).
  - discriminate.
  - exists url. auto.
Defined.

Lemma run_frame_witness :
  lookup "notes.txt"
    (fs (snd (run (serve (encode [hash_a; hash_c])) (serve [x63]) digest
                  true false true "http://media" destination)))
  = lookup "notes.txt" destination.
Proof.
  apply (run_frame (serve (encode [hash_a; hash_c])) (serve [x63]) digest
           true false true "http://media" destination "notes.txt").
  - discriminate.
  - reflexivity.
  - vm_compute. intuition discriminate.
  - vm_compute. intuition discriminate.
Defined.

Lemma run_keeps_entries_witness :
  In "cache"
     (listdir (fs (snd (run (serve (encode [hash_c])) (serve [x63]) digest
                            true false false "http://media" destination)))).
Proof.
  apply (run_keeps_entries (serve (encode [hash_c])) (serve [x63]) digest
           true false false "http://media" destination "cache").
  - simpl. auto.
  - right. reflexivity.
Defined.

Lemma run_counters_witness :
  found_count
    (snd (run (serve (encode [hash_a; hash_c])) (serve [x63]) digest
              true false false "http://media" destination)) = 2.
Proof.
  destruct (run_counters (serve (encode [hash_a; hash_c])) (serve [x63])
              digest true false false "http://media" "http://media/"
              destination (encode [hash_a; hash_c]) (Ok tt)
              (snd (run (serve (encode [hash_a; hash_c])) (serve [x63])
                        digest true false false "http://media"
                        destination)))
    as (_ & _ & Hfound).
  - reflexivity.
  - reflexivity.
  - vm_compute. reflexivity.
  - rewrite (Hfound eq_refl). reflexivity.
Defined.

Lemma run_provides_remote_hashes_witness :
  lookup name_c
    (fs (snd (run (serve (encode [hash_a; hash_c])) (serve [x63]) digest
                  true false false "http://media" destination)))
  = Some (File [x63]).
Proof.
  destruct (run_provides_remote_hashes
              (serve (encode [hash_a; hash_c])) (serve [x63]) digest
              true false false "http://media" "http://media/" destination
              (encode [hash_a; hash_c])
              (snd (run (serve (encode [hash_a; hash_c])) (serve [x63])
                        digest true false false "http://media"
                        destination)))
    with (h := name_c)
    as [(body & Hget & Hfile)|(_ & Hlocal & _)].
  - reflexivity.
  - reflexivity.
  - exact sample_NoDup.
  - vm_compute. reflexivity.
  - vm_compute. auto.
  - injection Hget as <-. exact Hfile.
  - exfalso. vm_compute in Hlocal. intuition discriminate.
Defined.

Lemma run_leaves_only_remote_hashes_witness :
  In name_a (yields (iter_mth (encode [hash_a; hash_c]))).
Proof.
  apply (run_leaves_only_remote_hashes
           (serve (encode [hash_a; hash_c])) (serve [x63]) digest
           true false false "http://media" "http://media/" destination
           (encode [hash_a; hash_c])
           (snd (run (serve (encode [hash_a; hash_c])) (serve [x63])
                     digest true false false "http://media" destination))).
  - reflexivity.
  - reflexivity.
  - reflexivity.
  - exact sample_NoDup.
  - vm_compute. reflexivity.
  - vm_compute. auto.
  - reflexivity.
Defined.

Lemma synced_NoDup : NoDup (listdir synced).
Proof. repeat constructor; cbn; intuition discriminate. Defined.

Lemma run_on_synced_destination_witness :
  to_download
    (snd (run (serve (encode [hash_a])) (serve [x63]) digest
              true false false "http://media" synced)) = []
  /\ lookup "notes.txt"
       (fs (snd (run (serve (encode [hash_a])) (serve [x63]) digest
                     true false false "http://media" synced)))
     = Some (File [x02]).
Proof.
  destruct (run_on_synced_destination
              (serve (encode [hash_a])) (serve [x63]) digest
              true false false "http://media" "http://media/" synced
              (encode [hash_a]))
    with (s := snd (run (serve (encode [hash_a])) (serve [x63]) digest
                        true false false "http://media" synced))
    as (Hnone & _ & _ & _ & Hframe).
  - reflexivity.
  - reflexivity.
  - reflexivity.
  - exact synced_NoDup.
  - vm_compute. repeat constructor. intros [].
  - intros h Hh. vm_compute in Hh. destruct Hh as [<-|[]]. now left.
  - intros n [<-|[<-|[]]] Hn; [now left|discriminate Hn].
  - reflexivity.
  - split; [exact Hnone|]. rewrite Hframe; [reflexivity|discriminate].
Defined.

Lemma run_twice_witness :
  exists s2,
    run (serve (encode [hash_a; hash_c])) (serve [x63]) digest
        true false false "http://media"
        (fs (snd (run (serve (encode [hash_a; hash_c])) (serve [x63]) digest
                      true false false "http://media" destination)))
    = (Ok tt, s2)
    /\ fs s2
       = fs (snd (run (serve (encode [hash_a; hash_c])) (serve [x63]) digest
                      true false false "http://media" destination)).
Proof.
  destruct (run_twice (serve (encode [hash_a; hash_c])) (serve [x63]) digest
              true false false "http://media" "http://media/" destination
              (encode [hash_a; hash_c])
              (snd (run (serve (encode [hash_a; hash_c])) (serve [x63])
                        digest true false false "http://media"
                        destination)))
    as (s2 & Hrun & Hfs & _).
  - reflexivity.
  - reflexivity.
  - reflexivity.
  - reflexivity.
  - exact sample_NoDup.
  - vm_compute. repeat constructor; cbn; intuition discriminate.
  - vm_compute. reflexivity.
  - exists s2. split; [exact Hrun | exact Hfs].
Defined.

Lemma failed_fetch_leaves_empty_file_witness :
  exists s,
    run (serve (encode [hash_b; hash_a])) (refuse name_a) digest
        true false true "http://media" destination
    = (Raise ConnectionError, s)
    /\ lookup name_a destination = Some (File [x01])
    /\ lookup name_a (fs s) = Some (File [])
    /\ to_delete s = [].
Proof.
  destruct (failed_fetch_leaves_empty_file
              (serve (encode [hash_b; hash_a])) (refuse name_a) digest
              true false true "http://media" "http://media/" destination
              (encode [hash_b; hash_a]) [name_b] [] name_a
              (snd (process_hash (refuse name_a) true "http://media/" name_b
                                 (listed destination))))
    as (s & Hrun & Hempty & _ & Hdel).
  - reflexivity.
  - reflexivity.
  - reflexivity.
  - vm_compute. reflexivity.
  - reflexivity.
  - vm_compute. discriminate.
  - vm_compute. reflexivity.
  - exists s. repeat split; auto.
Defined.
